(** * Shadowsocks outbound client: [Client.Dispatch]

    A shallow embedding of [proxy/shadowsocks/client.go].  The external
    collaborators of [Dispatch] (transport dialer, account decoding, the
    protocol codec, the pipes) are gathered in a record of oracles, so that
    [Dispatch] becomes a function from the oracles to the sequence of calls
    it makes and the value it returns.  Go's [defer], early [return] and
    run-time panics are modelled by a small monad; the response goroutine
    is interleaved with [Dispatch] by a scheduler relation. *)

From Stdlib Require Import ZArith Lia.
From stdpp Require Import prelude strings.

(** ** common/net : destinations *)
Module v2net.

(** Modelled from the spec: the [Network] enumeration is declared in
    [common/net], outside the source file; the data model lists the three
    kinds stream, datagram and raw-stream. *)
Inductive Network := Network_RawTCP | Network_TCP | Network_UDP.

#[global] Instance Network_eq_dec : EqDecision Network.
Proof. solve_decision. Defined.

Record Destination := {
  network : Network;
  Address : string;
  Port : Z
}.

(** [dest.Network = network] on a local copy of a destination. *)
Definition with_network (d : Destination) (n : Network) : Destination :=
  {| network := n; Address := Address d; Port := Port d |}.

End v2net.

(** ** The account payload of this package *)
Module account.

(** Modelled from the spec: the one-time-auth mode of an account is one of
    disabled, enabled, auto. *)
Inductive Account_OneTimeAuth := Account_Auto | Account_Disabled | Account_Enabled.

#[global] Instance OneTimeAuth_eq_dec : EqDecision Account_OneTimeAuth.
Proof. solve_decision. Defined.

Record ShadowsocksAccount := {
  Password : string;
  OneTimeAuth : Account_OneTimeAuth
}.

End account.

(** ** common/protocol : users, servers, request headers, server picker *)
Module protocol.

Record User := { Email : string }.

(** The dynamic type of the value returned by [GetTypedAccount]: the
    [protocol.Account] interface holds either a pointer to a
    [ShadowsocksAccount] or a value of some other concrete type, named by
    [foreign]. *)
Inductive Account :=
| IsShadowsocks (a : account.ShadowsocksAccount)
| IsForeign (foreign : string).

Record ServerSpec := {
  Destination : v2net.Destination;
  users : list User
}.

Inductive RequestCommand := RequestCommandTCP | RequestCommandUDP.

#[global] Instance RequestCommand_eq_dec : EqDecision RequestCommand.
Proof. solve_decision. Defined.

(** [Option] is a byte-sized bit set; [ReqUser] is the [User] field, nil
    until it is assigned. *)
Record RequestHeader := {
  Version : Z;
  Command : RequestCommand;
  Option : Z;
  Address : string;
  Port : Z;
  ReqUser : option User
}.

(** [request.User = user] *)
Definition set_User (r : RequestHeader) (u : User) : RequestHeader :=
  {| Version := Version r; Command := Command r; Option := Option r;
     Address := Address r; Port := Port r; ReqUser := Some u |}.

(** [request.Option |= flag] *)
Definition or_Option (r : RequestHeader) (flag : Z) : RequestHeader :=
  {| Version := Version r; Command := Command r; Option := Z.lor (Option r) flag;
     Address := Address r; Port := Port r; ReqUser := ReqUser r |}.

(** A flag is set in an option byte when all of its bits are. *)
Definition Has (o flag : Z) : bool := (Z.land o flag =? flag)%Z.

(** Modelled from the spec: the round-robin picker of [common/protocol] is
    not part of the source file.  Section 4.1: successive calls visit the
    servers in cyclic order with wraparound, and a non-empty pool never
    yields an empty selection.  For an empty pool the contract names no
    result: there is no server to select, and the empty selection (the
    nil server) returned in that case is a choice of this model, not a
    sentence of the spec.  The theorems about the servers picked assume a
    non-empty pool. *)
Record RoundRobinServerPicker := {
  serverlist : list ServerSpec;
  nextIndex : nat
}.

Definition NewRoundRobinServerPicker (l : list ServerSpec) : RoundRobinServerPicker :=
  {| serverlist := l; nextIndex := 0 |}.

Definition PickServer (p : RoundRobinServerPicker)
  : option ServerSpec * RoundRobinServerPicker :=
  match serverlist p with
  | [] => (None, p)
  | _ :: _ =>
      let i := nextIndex p mod length (serverlist p) in
      (serverlist p !! i,
       {| serverlist := serverlist p; nextIndex := S i mod length (serverlist p) |})
  end.

End protocol.

(** ** Handles of the objects [Dispatch] talks to *)

Inductive Connection := Conn (id : nat).
Inductive Writer := BodyWriter (id : nat).
Inductive Reader := ResponseReader (id : nat).
Inductive OutboundRay := Ray (id : nat).

Definition Buffer := list Byte.byte.

Record OutboundHandlerMeta := { MetaAddress : string }.

Record Client := {
  serverPicker : protocol.RoundRobinServerPicker;
  meta : OutboundHandlerMeta
}.

(** The readable end handed to the response pipe. *)
Inductive source :=
| TCPResponse (r : Reader)
| UDPReader (timeout : Z) (c : Connection) (u : protocol.User).

(** The writable end handed to the request pipe. *)
Inductive sink :=
| TCPBody (w : Writer)
| UDPWriter (c : Connection) (request : protocol.RequestHeader).

(** ** The calls [Dispatch] makes *)

(** Calls made by the response goroutine. *)
Inductive bg_act :=
| CallReadTCPResponse (u : protocol.User) (c : Connection)
| LogWarning (msg : string)
| PipeToOutput (src : source) (ray : OutboundRay) (err : option string)
| MutexUnlock.

(** Calls made by [Dispatch] itself, in program order. *)
Inductive fg_act :=
| CallPickServer
| CallDial (src : string) (dest : v2net.Destination)
| Sleep (ms : Z)
| LogInfo (destination via : v2net.Destination)
| SetReusable (c : Connection) (b : bool)
| NewBufferedWriter (c : Connection)
| CallWriteTCPRequest (request : protocol.RequestHeader) (c : Connection)
| WriterWrite (to : sink) (payload : Buffer)
| NewTimeOutReader (timeout : Z) (c : Connection)
| MutexLock
| Go (body : list bg_act)
| SetCached (b : bool)
| PipeFromInput (ray : OutboundRay) (to : sink) (err : option string)
| PayloadRelease (payload : Buffer)
| InputRelease (ray : OutboundRay)
| OutputClose (ray : OutboundRay)
| BufferedWriterRelease (c : Connection)
| WriterRelease (w : Writer).

(** ** The collaborators, as oracles *)

Record World := {
  (** [internet.Dial]; the first argument counts the earlier calls. *)
  Dial : nat → string → v2net.Destination → Connection + string;
  (** [ServerSpec.PickUser] *)
  PickUser : protocol.ServerSpec → protocol.User;
  (** [User.GetTypedAccount] *)
  GetTypedAccount : protocol.User → protocol.Account + string;
  (** [WriteTCPRequest]: a body writer (nil is [None]) and an error. *)
  WriteTCPRequest : protocol.RequestHeader → Connection → option Writer * option string;
  (** [Write] of a body writer or of a [UDPWriter] *)
  Write : sink → Buffer → option string;
  (** [ReadTCPResponse] *)
  ReadTCPResponse : protocol.User → Connection → Reader + string;
  (** the error, if any, that ends [v2io.Pipe] into the Output *)
  PipeResponse : source → option string;
  (** the error, if any, that ends [v2io.Pipe] from the Input *)
  PipeRequest : sink → option string
}.

(** The same world with another response path. *)
Definition with_response (w : World)
    (rd : protocol.User → Connection → Reader + string)
    (pr : source → option string) : World :=
  {| Dial := Dial w; PickUser := PickUser w; GetTypedAccount := GetTypedAccount w;
     WriteTCPRequest := WriteTCPRequest w; Write := Write w;
     ReadTCPResponse := rd; PipeResponse := pr; PipeRequest := PipeRequest w |}.

(** ** Control flow of a Go function body *)

Inductive panic :=
| NilServer                         (* method call through the nil server *)
| NilConnection                     (* method call through the nil connection *)
| TypeAssertion (foreign : string)  (* the account is no ShadowsocksAccount *)
| NilWriter.                        (* method value of the nil body writer *)

Inductive outcome :=
| Returned (err : option string)
| Panicked (p : panic).

(** The local variables of [Dispatch], the picker it shares with other
    dispatches, the calls made so far and the stack of deferred calls. *)
Record frame := {
  picker : protocol.RoundRobinServerPicker;
  dialed : nat;
  server : option protocol.ServerSpec;
  conn : option Connection;
  request : option protocol.RequestHeader;
  trace : list fg_act;
  deferred : list fg_act
}.

Inductive step (A : Type) :=
| Next (a : A)
| Exit (o : outcome).
Arguments Next {A} a.
Arguments Exit {A} o.

Definition M (A : Type) : Type := frame → step A * frame.

#[global] Instance M_ret : MRet M := λ A a f, (Next a, f).
#[global] Instance M_bind : MBind M := λ A B k m f,
  match m f with
  | (Next a, f') => k a f'
  | (Exit o, f') => (Exit o, f')
  end.

Definition return_ {A} (err : option string) : M A := λ f, (Exit (Returned err), f).
Definition raise {A} (p : panic) : M A := λ f, (Exit (Panicked p), f).

Definition emit (a : fg_act) : M unit := λ f,
  (Next (),
   {| picker := picker f; dialed := dialed f; server := server f; conn := conn f;
      request := request f; trace := trace f ++ [a]; deferred := deferred f |}).

Definition defer (a : fg_act) : M unit := λ f,
  (Next (),
   {| picker := picker f; dialed := dialed f; server := server f; conn := conn f;
      request := request f; trace := trace f; deferred := a :: deferred f |}).

Definition set_server (s : option protocol.ServerSpec) : M unit := λ f,
  (Next (),
   {| picker := picker f; dialed := dialed f; server := s; conn := conn f;
      request := request f; trace := trace f; deferred := deferred f |}).

Definition set_conn (c : Connection) : M unit := λ f,
  (Next (),
   {| picker := picker f; dialed := dialed f; server := server f; conn := Some c;
      request := request f; trace := trace f; deferred := deferred f |}).

Definition set_request (r : protocol.RequestHeader) : M unit := λ f,
  (Next (),
   {| picker := picker f; dialed := dialed f; server := server f; conn := conn f;
      request := Some r; trace := trace f; deferred := deferred f |}).

(** [this.serverPicker.PickServer()] advances the shared picker. *)
Definition pick_server : M (option protocol.ServerSpec) := λ f,
  let '(s, p) := protocol.PickServer (picker f) in
  (Next s,
   {| picker := p; dialed := dialed f; server := server f; conn := conn f;
      request := request f; trace := trace f ++ [CallPickServer];
      deferred := deferred f |}).

(** On exit the deferred calls run, last registered first. *)
Definition run_deferred (f : frame) : frame :=
  {| picker := picker f; dialed := dialed f; server := server f; conn := conn f;
     request := request f; trace := trace f ++ deferred f; deferred := [] |}.

(** Leaving the function: the deferred calls run whatever ended the body. *)
Definition finish (r : step unit * frame) : outcome * frame :=
  match r with
  | (Next _, f) => (Returned None, run_deferred f)
  | (Exit o, f) => (o, run_deferred f)
  end.

(** ** common/retry *)
Module retry.

Record Strategy := Timed { attempts : nat; delay : Z }.

Definition ErrRetryFailed : string := "all retry attempts failed".

(** Modelled from the spec: [retry.Timed(n, d).On(method)] is not part of
    the source file.  Section 4.2: up to [n] attempts, spaced [d]
    milliseconds apart; the first success ends the loop, and when every
    attempt fails the final underlying error is reported. *)
Fixpoint loop (n : nat) (d : Z) (method : M (option string)) : M (option string) :=
  match n with
  | 0 => mret (Some ErrRetryFailed)
  | S n' =>
      err ← method;
      match err, n' with
      | None, _ => mret None
      | Some e, 0 => mret (Some e)
      | Some _, S _ => emit (Sleep d);; loop n' d method
      end
  end.

Definition On (s : Strategy) (method : M (option string)) : M (option string) :=
  loop (attempts s) (delay s) method.

End retry.

(** ** proxy/shadowsocks/client.go *)
Section Client.

(** Package constants declared in another file of the package. *)
Variable Version : Z.
Variable RequestOptionOneTimeAuth : Z.

Variable w : World.

(** [internet.Dial(this.meta.Address, dest, ...)] *)
Definition dial (src : string) (dest : v2net.Destination) : M (Connection + string) := λ f,
  (Next (Dial w (dialed f) src dest),
   {| picker := picker f; dialed := S (dialed f); server := server f; conn := conn f;
      request := request f; trace := trace f ++ [CallDial src dest];
      deferred := deferred f |}).

(** The closure passed to [retry.Timed(5, 100).On], lines 47-58. *)
Definition attempt (this : Client) (network : v2net.Network) : M (option string) :=
  s ← pick_server;
  set_server s;;
  match s with
  | None => raise NilServer
  | Some sv =>
      let dest := v2net.with_network (protocol.Destination sv) network in
      r ← dial (MetaAddress (meta this)) dest;
      match r with
      | inr err => mret (Some err)
      | inl rawConn => set_conn rawConn;; mret None
      end
  end.

(** The response goroutine of stream mode, lines 107-117. *)
Definition stream_reader (user : protocol.User) (c : Connection) (ray : OutboundRay)
  : list bg_act :=
  CallReadTCPResponse user c ::
  match ReadTCPResponse w user c with
  | inr err =>
      [LogWarning ("Shadowsocks|Client: Failed to read response: " +:+ err)]
  | inl responseReader =>
      [PipeToOutput (TCPResponse responseReader) ray
         (PipeResponse w (TCPResponse responseReader))]
  end ++ [MutexUnlock].

(** The response goroutine of datagram mode, lines 130-139. *)
Definition datagram_reader (user : protocol.User) (c : Connection) (ray : OutboundRay)
  : list bg_act :=
  let reader := UDPReader 16 c user in
  [PipeToOutput reader ray (PipeResponse w reader); MutexUnlock].

(** Lines 89-123.  The method value [bodyWriter.Release] is evaluated by
    the [defer] statement, which panics on the nil interface. *)
Definition stream_mode (request : protocol.RequestHeader) (user : protocol.User)
    (c : Connection) (payload : Buffer) (ray : OutboundRay) : M unit :=
  emit (NewBufferedWriter c);;
  defer (BufferedWriterRelease c);;
  emit (CallWriteTCPRequest request c);;
  let '(bodyWriter, err) := WriteTCPRequest w request c in
  match bodyWriter with
  | None => raise NilWriter
  | Some bw =>
      defer (WriterRelease bw);;
      match err with
      | Some e => return_ (Some ("Shadowsock|Client: Failed to write request: " +:+ e))
      | None =>
          emit (WriterWrite (TCPBody bw) payload);;
          match Write w (TCPBody bw) payload with
          | Some e =>
              return_ (Some ("Shadowsocks|Client: Failed to write payload: " +:+ e))
          | None =>
              emit MutexLock;;
              emit (Go (stream_reader user c ray));;
              emit (SetCached false);;
              emit (PipeFromInput ray (TCPBody bw) (PipeRequest w (TCPBody bw)));;
              emit MutexLock
          end
      end
  end.

(** Lines 125-151. *)
Definition datagram_mode (request : protocol.RequestHeader) (user : protocol.User)
    (c : Connection) (payload : Buffer) (ray : OutboundRay) : M unit :=
  emit (NewTimeOutReader 16 c);;
  emit MutexLock;;
  emit (Go (datagram_reader user c ray));;
  let writer := UDPWriter c request in
  emit (WriterWrite writer payload);;
  match Write w writer payload with
  | Some e => return_ (Some ("Shadowsocks|Client: Failed to write payload: " +:+ e))
  | None =>
      emit (PipeFromInput ray writer (PipeRequest w writer));;
      emit MutexLock
  end.

(** Lines 47-58: the retried closure. *)
Definition dial_phase (this : Client) (network : v2net.Network) : M (option string) :=
  retry.On (retry.Timed 5 100) (attempt this network).

(** Lines 62-153: what follows a successful dial.  The header literal of
    lines 66-70 and the command chosen at lines 71-75 are one step. *)
Definition request_phase (destination : v2net.Destination) (payload : Buffer)
    (ray : OutboundRay) : M unit := λ f,
  match server f, conn f with
  | None, _ => raise NilServer f
  | Some sv, None =>
      (emit (LogInfo destination (protocol.Destination sv));; raise NilConnection) f
  | Some sv, Some c =>
     (emit (LogInfo destination (protocol.Destination sv));;
      emit (SetReusable c false);;
      let request :=
        {| protocol.Version := Version;
           protocol.Command :=
             if decide (v2net.network destination = v2net.Network_TCP)
             then protocol.RequestCommandTCP else protocol.RequestCommandUDP;
           protocol.Option := 0;
           protocol.Address := v2net.Address destination;
           protocol.Port := v2net.Port destination;
           protocol.ReqUser := None |} in
      set_request request;;
      let user := PickUser w sv in
      match GetTypedAccount w user with
      | inr e =>
          return_ (Some ("Shadowsocks|Client: Failed to get a valid user account: "
                         +:+ e))
      | inl (protocol.IsForeign t) => raise (TypeAssertion t)
      | inl (protocol.IsShadowsocks account) =>
          let request := protocol.set_User request user in
          set_request request;;
          let request :=
            if decide (account.OneTimeAuth account = account.Account_Auto
                       ∨ account.OneTimeAuth account = account.Account_Enabled)
            then protocol.or_Option request RequestOptionOneTimeAuth
            else request in
          set_request request;;
          (if decide (protocol.Command request = protocol.RequestCommandTCP)
           then stream_mode request user c payload ray else mret ());;
          (if decide (protocol.Command request = protocol.RequestCommandUDP)
           then datagram_mode request user c payload ray else mret ());;
          return_ None
      end) f
  end.

(** The body of [Dispatch], lines 38-153. *)
Definition Dispatch_body (this : Client) (destination : v2net.Destination)
    (payload : Buffer) (ray : OutboundRay) : M unit :=
  defer (PayloadRelease payload);;
  defer (InputRelease ray);;
  defer (OutputClose ray);;
  let network := v2net.network destination in
  err ← dial_phase this network;
  match err with
  | Some e =>
      return_ (Some ("Shadowsocks|Client: Failed to find an available destination:" +:+ e))
  | None => request_phase destination payload ray
  end.

Definition enter (this : Client) : frame :=
  {| picker := serverPicker this; dialed := 0; server := None; conn := None;
     request := None; trace := []; deferred := [] |}.

(** [Dispatch]: the body, then the deferred calls.  The final frame holds
    every call made, the state of the picker and the last value of the
    local variables. *)
Definition Dispatch (this : Client) (destination : v2net.Destination)
    (payload : Buffer) (ray : OutboundRay) : outcome * frame :=
  finish (Dispatch_body this destination payload ray (enter this)).

End Client.

(** [ClientFactory.StreamCapability], lines 158-162. *)
Definition StreamCapability : list v2net.Network :=
  [v2net.Network_TCP; v2net.Network_RawTCP].

(** ** Dispatch and its response goroutine, interleaved

    The calls of [Dispatch] run in program order, those of a goroutine
    started by [Go] run in theirs, and the scheduler picks either side at
    every step.  [MutexLock] can only be taken while the mutex is free;
    the other calls are always enabled. *)
Module sched.

Record config := {
  fg : list fg_act;              (* what Dispatch still has to do *)
  bg : list (list bg_act);       (* what each started goroutine still has to do *)
  locked : bool;                 (* responseMutex *)
  hist : list (fg_act + bg_act)  (* the calls completed so far *)
}.

Definition start (calls : list fg_act) : config :=
  {| fg := calls; bg := []; locked := false; hist := [] |}.

(** One step of [Dispatch]. *)
Definition step_fg (c : config) : option config :=
  match fg c with
  | [] => None
  | MutexLock :: rest =>
      if locked c then None
      else Some {| fg := rest; bg := bg c; locked := true;
                   hist := hist c ++ [inl MutexLock] |}
  | Go body :: rest =>
      Some {| fg := rest; bg := bg c ++ [body]; locked := locked c;
              hist := hist c ++ [inl (Go body)] |}
  | a :: rest =>
      Some {| fg := rest; bg := bg c; locked := locked c; hist := hist c ++ [inl a] |}
  end.

(** One step of goroutine number [i]. *)
Definition step_bg (i : nat) (c : config) : option config :=
  match bg c !! i with
  | None | Some [] => None
  | Some (MutexUnlock :: rest) =>
      Some {| fg := fg c; bg := <[i := rest]> (bg c); locked := false;
              hist := hist c ++ [inr MutexUnlock] |}
  | Some (a :: rest) =>
      Some {| fg := fg c; bg := <[i := rest]> (bg c); locked := locked c;
              hist := hist c ++ [inr a] |}
  end.

Definition step (c c' : config) : Prop :=
  step_fg c = Some c' ∨ ∃ i, step_bg i c = Some c'.

Definition reachable (calls : list fg_act) (c : config) : Prop :=
  rtc step (start calls) c.

(** A schedule names the side that moves at each step: [None] is
    [Dispatch], [Some i] is goroutine [i]. *)
Fixpoint run (schedule : list (option nat)) (c : config) : option config :=
  match schedule with
  | [] => Some c
  | None :: s => c' ← step_fg c; run s c'
  | Some i :: s => c' ← step_bg i c; run s c'
  end.

(** The deferred calls that release what [Dispatch] holds. *)
Definition cleanup (a : fg_act) : bool :=
  match a with
  | PayloadRelease _ | InputRelease _ | OutputClose _
  | BufferedWriterRelease _ | WriterRelease _ => true
  | _ => false
  end.

(** Some cleanup call has run. *)
Definition cleaned (c : config) : bool :=
  existsb (λ e, match e with inl a => cleanup a | inr _ => false end) (hist c).

(** Every started goroutine has run to its end. *)
Definition quiescent (c : config) : bool :=
  forallb (λ t, match t with [] => true | _ :: _ => false end) (bg c).

End sched.

(** The shape of a call sequence that waits for its goroutine. *)
Module sync.
Import sched.

(** Calls that neither take the mutex, nor start a goroutine, nor release
    anything. *)
Definition plain (a : fg_act) : bool :=
  match a with
  | MutexLock | Go _ => false
  | _ => negb (cleanup a)
  end.

(** Calls that neither take the mutex nor start a goroutine. *)
Definition quiet (a : fg_act) : bool :=
  match a with
  | MutexLock | Go _ => false
  | _ => true
  end.

(** A goroutine body whose only [MutexUnlock] is its last call. *)
Fixpoint unlocks_last (body : list bg_act) : bool :=
  match body with
  | [] => false
  | MutexUnlock :: rest => match rest with [] => true | _ :: _ => false end
  | _ :: rest => unlocks_last rest
  end.

(** Plain calls, then the mutex is taken again before anything else. *)
Fixpoint waits (calls : list fg_act) : bool :=
  match calls with
  | [] => false
  | MutexLock :: post => forallb quiet post
  | a :: rest => plain a && waits rest
  end.

(** Plain calls, then the mutex is taken, the goroutine started, and the
    remainder waits for it. *)
Fixpoint spawns (calls : list fg_act) : bool :=
  match calls with
  | [] => false
  | MutexLock :: rest =>
      match rest with
      | Go body :: rest' => unlocks_last body && waits rest'
      | _ => false
      end
  | a :: rest => plain a && spawns rest
  end.

(** Either no goroutine is started, or the one started is waited for
    before any cleanup. *)
Definition synchronised (calls : list fg_act) : bool :=
  forallb quiet calls || spawns calls.

(** The configurations a synchronised call sequence goes through. *)
Inductive inv : config → Prop :=
| inv_alone c :
    bg c = [] → forallb quiet (fg c) = true → inv c
| inv_before c :
    bg c = [] → locked c = false → spawns (fg c) = true → cleaned c = false → inv c
| inv_locked c body rest :
    bg c = [] → locked c = true → fg c = Go body :: rest →
    unlocks_last body = true → waits rest = true → cleaned c = false → inv c
| inv_running c body :
    bg c = [body] → locked c = true → unlocks_last body = true →
    waits (fg c) = true → cleaned c = false → inv c
| inv_released c :
    bg c = [[]] → locked c = false → waits (fg c) = true → cleaned c = false → inv c
| inv_joined c :
    bg c = [[]] → locked c = true → forallb quiet (fg c) = true → inv c.

End sync.

(** ** Vocabulary of the statements *)

(** The calls of the dial phase. *)
Definition dial_act (a : fg_act) : bool :=
  match a with
  | CallPickServer | CallDial _ _ | Sleep _ => true
  | _ => false
  end.

(** The calls that hand the header or bytes to the connection. *)
Definition writes (a : fg_act) : bool :=
  match a with
  | CallWriteTCPRequest _ _ | WriterWrite _ _ | PipeFromInput _ _ _ => true
  | _ => false
  end.

Definition is_payload_release (a : fg_act) : bool :=
  match a with PayloadRelease _ => true | _ => false end.
Definition is_input_release (a : fg_act) : bool :=
  match a with InputRelease _ => true | _ => false end.
Definition is_output_close (a : fg_act) : bool :=
  match a with OutputClose _ => true | _ => false end.

Definition count (p : fg_act → bool) (l : list fg_act) : nat :=
  length (List.filter p l).

(** The frame in which the dial phase starts: the three deferred calls of
    lines 38-40 are registered. *)
Definition entered (this : Client) (payload : Buffer) (ray : OutboundRay) : frame :=
  {| picker := serverPicker this; dialed := 0; server := None; conn := None;
     request := None; trace := [];
     deferred := [OutputClose ray; InputRelease ray; PayloadRelease payload] |}.

#[global] Instance ServerSpec_inhabited : Inhabited protocol.ServerSpec :=
  populate {| protocol.Destination :=
                {| v2net.network := v2net.Network_TCP; v2net.Address := "";
                   v2net.Port := 0 |};
              protocol.users := [] |}.

(** The server that the [i]-th coming call of [PickServer] returns. *)
Definition turn (p : protocol.RoundRobinServerPicker) (i : nat) : protocol.ServerSpec :=
  protocol.serverlist p !!! ((protocol.nextIndex p + i) mod length (protocol.serverlist p)).

(** The picker after one call of [PickServer] on a non-empty pool. *)
Definition advance (p : protocol.RoundRobinServerPicker) : protocol.RoundRobinServerPicker :=
  {| protocol.serverlist := protocol.serverlist p;
     protocol.nextIndex :=
       S (protocol.nextIndex p mod length (protocol.serverlist p))
         mod length (protocol.serverlist p) |}.

(** The destination dialled at attempt [i]: the picked server's, with the
    network of the inbound destination. *)
Definition target (p : protocol.RoundRobinServerPicker) (network : v2net.Network) (i : nat)
  : v2net.Destination :=
  v2net.with_network (protocol.Destination (turn p i)) network.

(** The calls of attempt [i]. *)
Definition attempt_calls (p : protocol.RoundRobinServerPicker) (src : string)
    (network : v2net.Network) (i : nat) : list fg_act :=
  [CallPickServer; CallDial src (target p network i)].

(** Groups of calls with [gap] between consecutive groups. *)
Fixpoint spaced (gap : fg_act) (groups : list (list fg_act)) : list fg_act :=
  match groups with
  | [] => []
  | g :: rest =>
      match rest with
      | [] => g
      | _ :: _ => g ++ gap :: spaced gap rest
      end
  end.

(** ** Sample inputs *)

Definition ex_server (name : string) : protocol.ServerSpec :=
  {| protocol.Destination :=
       {| v2net.network := v2net.Network_TCP; v2net.Address := name; v2net.Port := 8388 |};
     protocol.users := [ {| protocol.Email := name |} ] |}.

Definition ex_client : Client :=
  {| serverPicker := protocol.NewRoundRobinServerPicker [ex_server "a"; ex_server "b"];
     meta := {| MetaAddress := "0.0.0.0" |} |}.

Definition ex_destination (n : v2net.Network) : v2net.Destination :=
  {| v2net.network := n; v2net.Address := "example.com"; v2net.Port := 443 |}.

Definition ex_shadowsocks (m : account.Account_OneTimeAuth) : account.ShadowsocksAccount :=
  {| account.Password := "secret"; account.OneTimeAuth := m |}.

Definition ex_account (m : account.Account_OneTimeAuth) : protocol.Account :=
  protocol.IsShadowsocks (ex_shadowsocks m).

(** The header built for [ex_destination n] and the first user of
    [ex_server "a"]. *)
Definition ex_header (n : v2net.Network) (option : Z) : protocol.RequestHeader :=
  {| protocol.Version := 1;
     protocol.Command :=
       match n with
       | v2net.Network_TCP => protocol.RequestCommandTCP
       | _ => protocol.RequestCommandUDP
       end;
     protocol.Option := option;
     protocol.Address := "example.com";
     protocol.Port := 443;
     protocol.ReqUser := Some {| protocol.Email := "a" |} |}.

(** A world in which every call succeeds; accounts ask for one-time auth. *)
Definition ex_world : World :=
  {| Dial := λ n _ _, inl (Conn n);
     PickUser := λ s, default {| protocol.Email := "" |} (head (protocol.users s));
     GetTypedAccount := λ _, inl (ex_account account.Account_Enabled);
     WriteTCPRequest := λ _ _, (Some (BodyWriter 0), None);
     Write := λ _ _, None;
     ReadTCPResponse := λ _ _, inl (ResponseReader 0);
     PipeResponse := λ _, None;
     PipeRequest := λ _, None |}.

(** The first [n] dials are refused. *)
Definition refusing (n : nat) (w : World) : World :=
  {| Dial := λ k src d, if decide (k < n) then inr "connection refused" else Dial w k src d;
     PickUser := PickUser w; GetTypedAccount := GetTypedAccount w;
     WriteTCPRequest := WriteTCPRequest w; Write := Write w;
     ReadTCPResponse := ReadTCPResponse w; PipeResponse := PipeResponse w;
     PipeRequest := PipeRequest w |}.

Definition with_account (acct : protocol.Account + string) (w : World) : World :=
  {| Dial := Dial w; PickUser := PickUser w; GetTypedAccount := λ _, acct;
     WriteTCPRequest := WriteTCPRequest w; Write := Write w;
     ReadTCPResponse := ReadTCPResponse w; PipeResponse := PipeResponse w;
     PipeRequest := PipeRequest w |}.


Definition with_write (res : option string) (w : World) : World :=
  {| Dial := Dial w; PickUser := PickUser w; GetTypedAccount := GetTypedAccount w;
     WriteTCPRequest := WriteTCPRequest w; Write := λ _ _, res;
     ReadTCPResponse := ReadTCPResponse w; PipeResponse := PipeResponse w;
     PipeRequest := PipeRequest w |}.

(** ** Creating a client, lines 24-35 and 164-166 *)

(** [app.Space]; [NewClient] does not look at it. *)
Inductive Space := TheSpace.

Section Factory.

(** [protocol.ServerEndpoint], the configured record of one server, and
    [protocol.NewServerSpecFromPB], which turns it into a [ServerSpec];
    both are declared in [common/protocol]. *)
Variable ServerEndpoint : Type.
Variable NewServerSpecFromPB : ServerEndpoint → protocol.ServerSpec.

(** [protocol.ServerList] with [NewServerList] and [AddServer], and the
    constructor of the picker, are declared in [common/protocol] as well.
    [NewClient] only calls them: they are parameters here, and what they
    do is a hypothesis of the theorems that need it. *)
Variable ServerList : Type.
Variable NewServerList : ServerList.
Variable AddServer : ServerList → protocol.ServerSpec → ServerList.
Variable NewRoundRobinServerPicker : ServerList → protocol.RoundRobinServerPicker.

(** [config.Server] is a slice of pointers: an entry may be nil. *)
Record ClientConfig := { Server : list (option ServerEndpoint) }.

(** The dynamic value of the [rawConfig] given to [Create]: a
    [*ClientConfig], which may be the nil pointer, or a value of another
    type (the nil interface included). *)
Inductive RawConfig :=
| IsClientConfig (config : option ClientConfig)
| IsOtherConfig (foreign : string).

(** How creating a client ends. *)
Inductive created :=
| Handler (client : Client) (err : option string)
| ConfigAssertion (foreign : string)   (* [rawConfig] is no [*ClientConfig] *)
| NilConfig                            (* [config.Server] through the nil config *)
| NilEndpoint.                         (* [*rec] on a nil entry *)

(** The loop of lines 26-28: the entries in slice order, each
    dereferenced, converted and added; a nil entry panics at [*rec]. *)
Fixpoint add_servers (recs : list (option ServerEndpoint)) (serverList : ServerList)
  : option ServerList :=
  match recs with
  | [] => Some serverList
  | Some rec :: rest => add_servers rest (AddServer serverList (NewServerSpecFromPB rec))
  | None :: _ => None
  end.

(** [NewClient], lines 24-35; the error it returns is always nil. *)
Definition NewClient (config : option ClientConfig) (space : Space)
    (meta : OutboundHandlerMeta) : created :=
  match config with
  | None => NilConfig
  | Some config =>
      match add_servers (Server config) NewServerList with
      | None => NilEndpoint
      | Some serverList =>
          Handler {| serverPicker := NewRoundRobinServerPicker serverList;
                     meta := meta |} None
      end
  end.

(** [ClientFactory.Create], lines 164-166: an unchecked type assertion,
    then [NewClient]. *)
Definition Create (space : Space) (rawConfig : RawConfig) (meta : OutboundHandlerMeta)
  : created :=
  match rawConfig with
  | IsClientConfig config => NewClient config space meta
  | IsOtherConfig t => ConfigAssertion t
  end.

End Factory.

(** ** More vocabulary *)

Definition is_go (a : fg_act) : bool :=
  match a with Go _ => true | _ => false end.
Definition is_lock (a : fg_act) : bool :=
  match a with MutexLock => true | _ => false end.
Definition is_set_reusable (a : fg_act) : bool :=
  match a with SetReusable _ _ => true | _ => false end.
Definition is_pick (a : fg_act) : bool :=
  match a with CallPickServer => true | _ => false end.

(** No enabled step: neither [Dispatch] nor any goroutine can move. *)
Definition stuck (c : sched.config) : Prop :=
  sched.step_fg c = None ∧ ∀ i, sched.step_bg i c = None.

(** Plain calls, then the mutex is taken and the goroutine started, and
    the remainder never takes the mutex again. *)
Fixpoint abandons (calls : list fg_act) : bool :=
  match calls with
  | [] => false
  | MutexLock :: rest =>
      match rest with
      | Go body :: rest' => sync.unlocks_last body && forallb sync.quiet rest'
      | _ => false
      end
  | a :: rest => sync.plain a && abandons rest
  end.

(** The configurations such a call sequence goes through. *)
Inductive inv_abandon : sched.config → Prop :=
| abandon_before c :
    sched.bg c = [] → sched.locked c = false → abandons (sched.fg c) = true →
    inv_abandon c
| abandon_locked c body rest :
    sched.bg c = [] → sched.fg c = Go body :: rest →
    sync.unlocks_last body = true → forallb sync.quiet rest = true → inv_abandon c
| abandon_running c body :
    sched.bg c = [body] → sync.unlocks_last body = true →
    forallb sync.quiet (sched.fg c) = true → inv_abandon c
| abandon_done c :
    sched.bg c = [[]] → forallb sync.quiet (sched.fg c) = true → inv_abandon c.

(** A configuration of two servers, each entry the name of its server. *)
Definition ex_config : ClientConfig string := {| Server := [Some "a"; Some "b"] |}.

(** Closes a case whose tests contradict each other. *)
Ltac absurd_case :=
  exfalso;
  repeat match goal with
         | H : context [decide ?P] |- _ => destruct (decide P); simpl in H
         end;
  congruence.

(** ** Proof steps shared by the theorems *)

(** Runs the request phase up to the next oracle call. *)
Ltac unfold_request :=
  cbv beta iota zeta delta
    [request_phase stream_mode datagram_mode finish run_deferred
     mbind M_bind mret M_ret emit defer set_request return_ raise
     picker dialed server conn request trace deferred fst snd
     protocol.Version protocol.Command protocol.Option protocol.Address
     protocol.Port protocol.ReqUser protocol.set_User protocol.or_Option].

(** Splits on the next test or oracle result. *)
Ltac next_case :=
  match goal with
  | |- context [match ?x with Some _ => _ | None => _ end] => is_var x; destruct x
  | |- context [decide ?P] => destruct (decide P)
  | |- context [GetTypedAccount ?w ?u] =>
      destruct (GetTypedAccount w u) as [[?|?]|?] eqn:?
  | |- context [WriteTCPRequest ?w ?r ?c] =>
      destruct (WriteTCPRequest w r c) as [[?|] [?|]] eqn:?
  | |- context [Write ?w ?s ?p] => destruct (Write w s p) eqn:?
  end.

Ltac run_request :=
  unfold_request; repeat (next_case; try congruence; unfold_request).

(** Membership in a list written out. *)
Ltac find_elem :=
  repeat first
    [ apply list_elem_of_here
    | apply elem_of_app; right
    | apply list_elem_of_further ].

(** The oracles of [with_response] that the request path reads. *)
Ltac sync_world :=
  cbn [with_response Dial PickUser GetTypedAccount WriteTCPRequest Write PipeRequest
       ReadTCPResponse PipeResponse].

(** A step that is no cleanup keeps the history clean. *)
Ltac still_clean Hc :=
  unfold sched.cleaned in *; simpl in *; rewrite existsb_app, Hc; reflexivity.

(** ** Properties *)

(** *** The dial phase leaves the rest of the frame alone *)

Section Frame.
Context (w : World).

(** One attempt touches neither the deferred calls nor the header; it
    makes dial-phase calls only, and sets [conn] only when it succeeds. *)
Lemma attempt_frame this network f r f' :
  attempt w this network f = (r, f') →
  deferred f' = deferred f ∧ request f' = request f ∧
  (∃ t, trace f' = trace f ++ t ∧ forallb dial_act t = true) ∧
  match r with
  | Next None => is_Some (server f') ∧ is_Some (conn f')
  | Next (Some _) => conn f' = conn f
  | Exit o => o = Panicked NilServer ∧ conn f' = conn f
  end.
Proof.
  unfold attempt, pick_server, mbind, M_bind, set_server, dial, set_conn, mret, M_ret, raise.
  destruct (protocol.PickServer (picker f)) as [[sv|] p]; simpl.
  - destruct (Dial w (dialed f) _ _); simpl; intros [= <- <-]; simpl;
      (split; [done|]); (split; [done|]); (split; [|by eauto]);
      eexists; (split; [rewrite <- app_assoc; done|done]).
  - intros [= <- <-]; simpl. split; [done|]. split; [done|]. split; [|done]. by eexists.
Qed.

(** The same holds for any number of retried attempts. *)
Lemma loop_frame this network n : ∀ f r f',
  retry.loop n 100 (attempt w this network) f = (r, f') →
  deferred f' = deferred f ∧ request f' = request f ∧
  (∃ t, trace f' = trace f ++ t ∧ forallb dial_act t = true) ∧
  match r with
  | Next None => is_Some (server f') ∧ is_Some (conn f')
  | Next (Some _) => conn f' = conn f
  | Exit o => o = Panicked NilServer ∧ conn f' = conn f
  end.
Proof.
  induction n as [|n IH]; intros f r f'; simpl.
  - intros [= <- <-]. split; [done|]. split; [done|]. split; [|done].
    exists []. by rewrite app_nil_r.
  - unfold mbind at 1, M_bind at 1.
    destruct (attempt w this network f) as [[[e|]|o] f1] eqn:Ha;
      apply attempt_frame in Ha as (Hd & Hr & (t & Ht & Hall) & Hc).
    + destruct n as [|n].
      * intros [= <- <-]. eauto 10.
      * unfold mbind at 1, M_bind at 1.
        change (emit (Sleep 100) f1) with (Next (), (emit (Sleep 100) f1).2).
        intros Hl.
        apply IH in Hl as (Hd' & Hr' & (t' & Ht' & Hall') & Hc'); simpl in *.
        split; [congruence|]. split; [congruence|]. split.
        -- exists (t ++ Sleep 100 :: t'). split.
           ++ rewrite Ht', Ht, <- !app_assoc. done.
           ++ rewrite forallb_app. simpl. by rewrite Hall, Hall'.
        -- destruct r as [[?|]|]; [congruence|done|].
           destruct Hc'. split; congruence.
    + intros [= <- <-]. eauto 10.
    + intros [= <- <-]. eauto 10.
Qed.

(** At the end of the dial phase the three deferred calls are the whole
    stack, no header exists, and only dial-phase calls were made. *)
Lemma dial_phase_frame this network payload ray r f :
  dial_phase w this network (entered this payload ray) = (r, f) →
  deferred f = [OutputClose ray; InputRelease ray; PayloadRelease payload] ∧
  request f = None ∧
  forallb dial_act (trace f) = true ∧
  match r with
  | Next None => is_Some (server f) ∧ is_Some (conn f)
  | Next (Some _) => conn f = None
  | Exit o => o = Panicked NilServer ∧ conn f = None
  end.
Proof.
  intros H. apply loop_frame in H as (Hd & Hr & (t & Ht & Hall) & Hc).
  simpl in Hd, Hr, Ht, Hc. rewrite Ht. done.
Qed.

End Frame.

(** *** Counting calls *)

Lemma count_app p l1 l2 : count p (l1 ++ l2) = count p l1 + count p l2.
Proof. unfold count. by rewrite List.filter_app, length_app. Qed.

(** Dial-phase calls are counted by no predicate that rejects them. *)
Lemma count_dial_acts p l :
  (∀ a, dial_act a = true → p a = false) →
  forallb dial_act l = true → count p l = 0.
Proof.
  intros Hp. induction l as [|a l IH]; [done|]. simpl.
  intros [Ha Hl]%andb_true_iff. unfold count in *. simpl.
  rewrite (Hp a Ha). auto.
Qed.

Lemma forallb_dial_acts (p : fg_act → bool) l :
  (∀ a, dial_act a = true → p a = true) →
  forallb dial_act l = true → forallb p l = true.
Proof.
  intros Hp. rewrite !forallb_forall. auto.
Qed.

Lemma dial_act_elem (a : fg_act) l :
  forallb dial_act l = true → a ∈ l → dial_act a = true.
Proof.
  rewrite forallb_forall. intros H Hin. by apply H, list_elem_of_In.
Qed.


(** *** The round-robin picker and the retry loop *)

Section Picker.
Import protocol.

(** On a non-empty pool [PickServer] yields the server whose turn it is. *)
Lemma PickServer_nonempty p :
  serverlist p ≠ [] → PickServer p = (Some (turn p 0), advance p).
Proof.
  intros Hne. unfold PickServer, turn, advance.
  destruct (serverlist p) as [|s l] eqn:Hl; [done|].
  rewrite Nat.add_0_r. f_equal.
  apply list_lookup_lookup_total_lt, Nat.mod_upper_bound. done.
Qed.

(** After one pick, every turn comes one call sooner. *)
Lemma turn_advance p i : turn (advance p) i = turn p (S i).
Proof.
  unfold turn, advance; simpl. f_equal.
  rewrite Nat.Div0.add_mod_idemp_l.
  replace (S (nextIndex p mod length (serverlist p)) + i)
    with (nextIndex p mod length (serverlist p) + S i) by lia.
  by rewrite Nat.Div0.add_mod_idemp_l.
Qed.

(** The server whose turn it is is a server of the pool. *)
Lemma turn_lookup p i :
  serverlist p ≠ [] →
  serverlist p !! ((nextIndex p + i) mod length (serverlist p)) = Some (turn p i).
Proof.
  intros Hne. apply list_lookup_lookup_total_lt, Nat.mod_upper_bound.
  by destruct (serverlist p).
Qed.

End Picker.

Section Loop.
Context (w : World).

(** One attempt on a non-empty pool: pick, override the network, dial. *)
Lemma attempt_nonempty this network f :
  protocol.serverlist (picker f) ≠ [] →
  let src := MetaAddress (meta this) in
  let d := target (picker f) network 0 in
  ∃ f', attempt w this network f =
          (Next (match Dial w (dialed f) src d with inl _ => None | inr e => Some e end), f') ∧
        picker f' = advance (picker f) ∧ dialed f' = S (dialed f) ∧
        trace f' = trace f ++ attempt_calls (picker f) src network 0 ∧
        server f' = Some (turn (picker f) 0) ∧
        conn f' = match Dial w (dialed f) src d with inl c => Some c | inr _ => conn f end.
Proof.
  intros Hne src d.
  unfold attempt, pick_server, mbind, M_bind, set_server, dial, set_conn, mret, M_ret.
  rewrite (PickServer_nonempty _ Hne); simpl.
  fold src. change (v2net.with_network _ network) with d.
  destruct (Dial w (dialed f) src d); simpl; eexists; (split; [done|]); simpl;
    rewrite <- app_assoc; done.
Qed.

(** The retry loop on a non-empty pool: [k] attempts are made, all but the
    last failed, and the loop ends with the outcome of attempt [k - 1];
    it ends in an error only after [n] attempts. *)
Lemma loop_run this network n : ∀ f,
  protocol.serverlist (picker f) ≠ [] → n ≠ 0 →
  let src := MetaAddress (meta this) in
  let p := picker f in
  ∃ k r f',
    1 ≤ k ≤ n ∧
    retry.loop n 100 (attempt w this network) f = (Next r, f') ∧
    trace f' = trace f ++ spaced (Sleep 100) (attempt_calls p src network <$> seq 0 k) ∧
    (∀ i, i < k - 1 → ∃ e, Dial w (dialed f + i) src (target p network i) = inr e) ∧
    server f' = Some (turn p (k - 1)) ∧
    match r with
    | None => ∃ c, Dial w (dialed f + (k - 1)) src (target p network (k - 1)) = inl c ∧
                   conn f' = Some c
    | Some e => k = n ∧ Dial w (dialed f + (k - 1)) src (target p network (k - 1)) = inr e ∧
                conn f' = conn f
    end.
Proof.
  induction n as [|n IH]; intros f Hne Hn src p; [done|]. clear Hn.
  destruct (attempt_nonempty this network f Hne) as (f1 & Ha & Hp & Hd & Ht & Hs & Hc).
  fold src p in Ha, Ht, Hs, Hc.
  simpl. unfold mbind at 1, M_bind at 1. rewrite Ha.
  destruct (Dial w (dialed f) src (target p network 0)) as [c|e] eqn:HD.
  - exists 1, None, f1. simpl. rewrite Nat.add_0_r.
    split_and!; try done; try lia. eauto.
  - destruct n as [|n].
    + exists 1, (Some e), f1. simpl. rewrite Nat.add_0_r.
      split_and!; try done; lia.
    + set (f2 := (emit (Sleep 100) f1).2).
      destruct (IH f2) as (k & r & f' & Hk & Hl & Ht' & Hfail & Hs' & Hr);
        [by subst f2; simpl; rewrite Hp|done|].
      change (picker f2) with (picker f1) in *.
      change (dialed f2) with (dialed f1) in *.
      change (trace f2) with (trace f1 ++ [Sleep 100]) in *.
      change (conn f2) with (conn f1) in *.
      rewrite Hp in *. rewrite Hd in *. fold src p in Ht', Hfail, Hs', Hr.
      exists (S k), r, f'. split; [lia|]. split; [exact Hl|].
      split.
      { rewrite Ht', Ht, <- !app_assoc. f_equal.
        destruct k as [|k]; [lia|].
        change (seq 0 (S (S k))) with (0 :: seq 1 (S k)).
        rewrite <- fmap_S_seq, fmap_cons, <- list_fmap_compose.
        assert (attempt_calls (advance p) src network <$> seq 0 (S k)
                = attempt_calls p src network ∘ S <$> seq 0 (S k)) as ->.
        { apply list_fmap_ext. intros _ i _. unfold attempt_calls, target; simpl.
          by rewrite turn_advance. }
        done. }
      split.
      { intros [|i] Hi.
        - rewrite Nat.add_0_r. eauto.
        - destruct (Hfail i) as [e' He']; [lia|]. exists e'.
          unfold target in *. rewrite turn_advance in He'.
          by replace (dialed f + S i) with (S (dialed f) + i) by lia. }
      split.
      { rewrite Hs', turn_advance. f_equal. f_equal. lia. }
      replace (S k - 1) with (S (k - 1)) by lia.
      replace (dialed f + S (k - 1)) with (S (dialed f) + (k - 1)) by lia.
      unfold target in *. rewrite turn_advance in Hr.
      destruct r as [e'|].
      * destruct Hr as (-> & He' & Hc'). by rewrite Hc', Hc.
      * done.
Qed.

End Loop.

(** *** From the dial phase to the request phase *)

Section Entry.
Context (Version RequestOptionOneTimeAuth : Z) (w : World).
Local Abbreviation Dispatch := (Dispatch Version RequestOptionOneTimeAuth w).

(** [Dispatch] is the dial phase followed, if a dial succeeded, by the
    request phase, with the deferred calls run at the end. *)
Lemma Dispatch_unfold this destination payload ray :
  Dispatch this destination payload ray =
  match dial_phase w this (v2net.network destination) (entered this payload ray) with
  | (Next (Some e), f) =>
      (Returned (Some ("Shadowsocks|Client: Failed to find an available destination:"
                       +:+ e)), run_deferred f)
  | (Next None, f) =>
      finish (request_phase Version RequestOptionOneTimeAuth w destination payload ray f)
  | (Exit o, f) => (o, run_deferred f)
  end.
Proof.
  unfold Dispatch, Dispatch_body.
  change ((defer (PayloadRelease payload);; defer (InputRelease ray);;
           defer (OutputClose ray);; ?k) (enter this))
    with (k (entered this payload ray)).
  unfold mbind, M_bind.
  by destruct (dial_phase w this _ _) as [[[e|]|o] f].
Qed.

(** What follows the dial phase leaves the picker, [server] and [conn]
    alone and makes no further dial-phase call. *)
Lemma request_phase_frame destination payload ray f0 :
  deferred f0 = [OutputClose ray; InputRelease ray; PayloadRelease payload] →
  let f := (finish (request_phase Version RequestOptionOneTimeAuth w
                      destination payload ray f0)).2 in
  picker f = picker f0 ∧ server f = server f0 ∧ conn f = conn f0 ∧
  ∃ rest, trace f = trace f0 ++ rest ∧ forallb (λ a, negb (dial_act a)) rest = true.
Proof.
  destruct f0 as [p n sv c rq tr df]; simpl; intros ->.
  run_request.
  all: split_and!; try reflexivity.
  all: rewrite <- ?app_assoc; eexists; split; [reflexivity|reflexivity].
Qed.

(** A dispatch that ends with a connection went through the request
    phase, entered with that connection and the server that gave it. *)
Lemma Dispatch_dialled this destination payload ray sv c :
  let r := Dispatch this destination payload ray in
  server r.2 = Some sv → conn r.2 = Some c →
  ∃ p n tr,
    forallb dial_act tr = true ∧
    r = finish (request_phase Version RequestOptionOneTimeAuth w destination payload ray
                  {| picker := p; dialed := n; server := Some sv; conn := Some c;
                     request := None; trace := tr;
                     deferred := [OutputClose ray; InputRelease ray;
                                  PayloadRelease payload] |}).
Proof.
  simpl. rewrite Dispatch_unfold.
  destruct (dial_phase w this _ _) as [r f0] eqn:Hdial.
  apply dial_phase_frame in Hdial as (Hd & Hrq & Hall & Hc).
  destruct r as [[e'|]|o].
  - simpl. congruence.
  - destruct (request_phase_frame destination payload ray f0 Hd) as (_ & -> & -> & _).
    destruct f0 as [p n sv0 c0 rq tr df]; simpl in *. intros -> ->. subst.
    by exists p, n, tr.
  - destruct Hc as [_ Hc]. simpl. congruence.
Qed.

End Entry.

(** *** The request header *)

Section Header.
Context (Version RequestOptionOneTimeAuth : Z) (w : World).
Local Abbreviation Dispatch := (Dispatch Version RequestOptionOneTimeAuth w).

(** C1, as amended: the command of the request header is the stream command
    exactly when the network of the requested destination is TCP; for
    every other network, raw TCP included, it is the datagram command. *)
Theorem C1_command_by_network this destination payload ray req :
  request (Dispatch this destination payload ray).2 = Some req →
  (v2net.network destination = v2net.Network_TCP →
     protocol.Command req = protocol.RequestCommandTCP) ∧
  (v2net.network destination ≠ v2net.Network_TCP →
     protocol.Command req = protocol.RequestCommandUDP).
Proof.
  rewrite Dispatch_unfold.
  destruct (dial_phase w this _ _) as [r f0] eqn:Hdial.
  apply dial_phase_frame in Hdial as (Hd & Hrq & _ & _).
  destruct f0 as [p n sv c rq tr df]; simpl in Hd, Hrq; subst df rq.
  destruct r as [[e|]|o]; run_request; intros [= <-]; by simpl.
Qed.

(** C2: in a dispatch that dialled a server and resolved the account of
    the picked user, the one-time-auth flag is set in the option byte of
    the request header if and only if the mode of the account is enabled
    or auto, and it is clear when the mode is disabled.  The flag is a
    non-zero constant of the package. *)
Theorem C2_one_time_auth_flag this destination payload ray sv c a :
  RequestOptionOneTimeAuth ≠ 0%Z →
  let f := (Dispatch this destination payload ray).2 in
  server f = Some sv → conn f = Some c →
  GetTypedAccount w (PickUser w sv) = inl (protocol.IsShadowsocks a) →
  ∃ req, request f = Some req ∧
    (protocol.Has (protocol.Option req) RequestOptionOneTimeAuth = true ↔
       account.OneTimeAuth a = account.Account_Enabled ∨
       account.OneTimeAuth a = account.Account_Auto) ∧
    (account.OneTimeAuth a = account.Account_Disabled →
       protocol.Has (protocol.Option req) RequestOptionOneTimeAuth = false).
Proof.
  intros HF. rewrite Dispatch_unfold.
  destruct (dial_phase w this _ _) as [r f0] eqn:Hdial.
  apply dial_phase_frame in Hdial as (Hd & Hrq & _ & Hc).
  destruct f0 as [p n sv0 c0 rq tr df]; simpl in Hd, Hrq, Hc; subst df rq.
  assert (Hon : protocol.Has RequestOptionOneTimeAuth RequestOptionOneTimeAuth = true).
  { unfold protocol.Has. rewrite Z.land_diag. by apply Z.eqb_eq. }
  assert (Hoff : protocol.Has 0 RequestOptionOneTimeAuth = false).
  { unfold protocol.Has. rewrite Z.land_0_l. apply Z.eqb_neq. congruence. }
  destruct r as [[e|]|o]; [by subst c0| |by destruct Hc as [_ ->]].
  run_request; intros [= ->] [= ->] Ha; try congruence;
    replace a0 with a in * by congruence;
    eexists; (split; [reflexivity|]); simpl; rewrite ?Hon, ?Hoff.
  all: destruct (account.OneTimeAuth a); intuition congruence.
Qed.

(** The header given to [WriteTCPRequest], and the one every [UDPWriter]
    frames its packets with, is the header [Dispatch] built, and the
    connection is the one the dial phase obtained. *)
Theorem header_handed_to_codec this destination payload ray req c :
  let f := (Dispatch this destination payload ray).2 in
  CallWriteTCPRequest req c ∈ trace f ∨
  (∃ p, WriterWrite (UDPWriter c req) p ∈ trace f) ∨
  (∃ e, PipeFromInput ray (UDPWriter c req) e ∈ trace f) →
  request f = Some req ∧ conn f = Some c.
Proof.
  rewrite Dispatch_unfold.
  destruct (dial_phase w this _ _) as [r f0] eqn:Hdial.
  apply dial_phase_frame in Hdial as (Hd & _ & Hall & _).
  destruct f0 as [pk n sv c0 rq tr df]; simpl in Hd, Hall; subst df.
  assert (Hno : ∀ a, a ∈ tr → dial_act a = true) by (intros; by eapply dial_act_elem).
  destruct r as [[e|]|o]; run_request.
  all: rewrite <- ?app_assoc.
  all: intros [H|[[? H]|[? H]]].
  all: rewrite ?elem_of_app, ?elem_of_cons, ?elem_of_nil in H.
  all: repeat match goal with H : _ ∨ _ |- _ => destruct H as [H|H] end.
  all: try (apply Hno in H; discriminate).
  all: try discriminate; try done.
  all: by injection H as <- <-.
Qed.

End Header.

(** *** Dialling *)

Section Dialling.
Context (Version RequestOptionOneTimeAuth : Z) (w : World).
Local Abbreviation Dispatch := (Dispatch Version RequestOptionOneTimeAuth w).

(** C3: on a non-empty pool the dial phase makes [k] attempts, with
    [1 <= k <= 5] and a sleep of 100 ms between consecutive attempts.
    Attempt [i] picks the server the round-robin picker yields at its
    [i]-th call and dials [target p net i]: the address and port of that
    server's destination, with its network replaced by the network of the
    inbound destination, whatever network the server was configured with.
    Every attempt before the last failed.
    Either the last attempt succeeded, and [conn] and [server] hold its
    connection and the server that gave it, or all five attempts failed.
    No later call picks a server, dials or sleeps. *)
Theorem C3_dial_attempts this destination payload ray :
  protocol.serverlist (serverPicker this) ≠ [] →
  let p := serverPicker this in
  let src := MetaAddress (meta this) in
  let net := v2net.network destination in
  let f := (Dispatch this destination payload ray).2 in
  ∃ k rest,
    1 ≤ k ≤ 5 ∧
    trace f = spaced (Sleep 100) (attempt_calls p src net <$> seq 0 k) ++ rest ∧
    forallb (λ a, negb (dial_act a)) rest = true ∧
    (∀ i, i < k →
       protocol.serverlist p !! ((protocol.nextIndex p + i) mod length (protocol.serverlist p))
       = Some (turn p i)) ∧
    (∀ i,
       target p net i =
         {| v2net.network := v2net.network destination;
            v2net.Address := v2net.Address (protocol.Destination (turn p i));
            v2net.Port := v2net.Port (protocol.Destination (turn p i)) |}) ∧
    (∀ i, i < k - 1 → ∃ e, Dial w i src (target p net i) = inr e) ∧
    server f = Some (turn p (k - 1)) ∧
    ((∃ c, Dial w (k - 1) src (target p net (k - 1)) = inl c ∧ conn f = Some c) ∨
     (k = 5 ∧ conn f = None ∧ ∃ e, Dial w 4 src (target p net 4) = inr e)).
Proof.
  intros Hne p src net. rewrite Dispatch_unfold.
  destruct (loop_run w this net 5 (entered this payload ray) Hne)
    as (k & r & f0 & Hk & Hl & Ht & Hfail & Hs & Hr); [done|].
  change (retry.loop 5 100 (attempt w this net) (entered this payload ray))
    with (dial_phase w this net (entered this payload ray)) in Hl.
  fold net. rewrite Hl.
  pose proof (dial_phase_frame _ _ _ _ _ _ _ Hl) as (Hd & _ & _ & _).
  simpl in Ht, Hfail, Hs, Hr. fold p src in Ht, Hfail, Hs, Hr.
  assert (Hturn : ∀ i, i < k →
    protocol.serverlist p !! ((protocol.nextIndex p + i) mod length (protocol.serverlist p))
    = Some (turn p i)) by (intros; by apply turn_lookup).
  destruct r as [e|].
  - destruct Hr as (-> & He & Hc). simpl in Hc.
    exists 5, (deferred f0). simpl. rewrite Ht, Hd.
    split_and!; try done; try lia. right. eauto.
  - destruct Hr as (c & HD & Hc).
    destruct (request_phase_frame Version RequestOptionOneTimeAuth w
                destination payload ray f0 Hd)
      as (_ & Hs' & Hc' & rest & Ht' & Hrest).
    exists k, rest. rewrite Ht', Ht, Hs', Hc', Hs, Hc.
    split_and!; try done; try lia. left. eauto.
Qed.

(** C4: when all five dials fail, [Dispatch] returns the error of the
    last dial behind the prefix that names the operation; no connection
    was obtained, no request header was built, and the only calls after
    the dial phase are the three deferred releases, so nothing was
    written. *)
Theorem C4_all_dials_fail this destination payload ray :
  let p := serverPicker this in
  let src := MetaAddress (meta this) in
  let net := v2net.network destination in
  protocol.serverlist p ≠ [] →
  (∀ i, i < 5 → ∃ e, Dial w i src (target p net i) = inr e) →
  ∃ e f,
    Dial w 4 src (target p net 4) = inr e ∧
    Dispatch this destination payload ray =
      (Returned (Some ("Shadowsocks|Client: Failed to find an available destination:"
                       +:+ e)), f) ∧
    conn f = None ∧ request f = None ∧
    trace f = spaced (Sleep 100) (attempt_calls p src net <$> seq 0 5) ++
              [OutputClose ray; InputRelease ray; PayloadRelease payload] ∧
    count writes (trace f) = 0.
Proof.
  intros p src net Hne Hall. rewrite Dispatch_unfold.
  destruct (loop_run w this net 5 (entered this payload ray) Hne)
    as (k & r & f0 & Hk & Hl & Ht & Hfail & Hs & Hr); [done|].
  change (retry.loop 5 100 (attempt w this net) (entered this payload ray))
    with (dial_phase w this net (entered this payload ray)) in Hl.
  fold net. rewrite Hl.
  pose proof (dial_phase_frame _ _ _ _ _ _ _ Hl) as (Hd & Hrq & Hdial & _).
  simpl in Ht, Hfail, Hs, Hr. fold p src in Ht, Hfail, Hs, Hr.
  destruct r as [e|].
  - destruct Hr as (-> & He & Hc). simpl in Hc, He.
    exists e, (run_deferred f0). simpl. rewrite Hd, Ht.
    by split_and!.
  - destruct Hr as (c & HD & _). destruct (Hall (k - 1)) as [e He]; [lia|].
    simpl in HD. congruence.
Qed.

End Dialling.

(** *** Deferred releases *)

Section Cleanup.
Context (Version RequestOptionOneTimeAuth : Z) (w : World).
Local Abbreviation Dispatch := (Dispatch Version RequestOptionOneTimeAuth w).

(** C5: on every exit path of [Dispatch], whether it returns nil, returns
    an error or panics, the payload is released exactly once, the Input of
    the ray is released exactly once and its Output is closed exactly
    once, and these calls are made on the payload and the ray supplied. *)
Theorem C5_release_exactly_once this destination payload ray :
  let f := (Dispatch this destination payload ray).2 in
  count is_payload_release (trace f) = 1 ∧ PayloadRelease payload ∈ trace f ∧
  count is_input_release (trace f) = 1 ∧ InputRelease ray ∈ trace f ∧
  count is_output_close (trace f) = 1 ∧ OutputClose ray ∈ trace f.
Proof.
  rewrite Dispatch_unfold.
  destruct (dial_phase w this _ _) as [r f0] eqn:Hdial.
  apply dial_phase_frame in Hdial as (Hd & _ & Hall & _).
  assert (Hp : count is_payload_release (trace f0) = 0)
    by (apply count_dial_acts; [by intros []|done]).
  assert (Hi : count is_input_release (trace f0) = 0)
    by (apply count_dial_acts; [by intros []|done]).
  assert (Ho : count is_output_close (trace f0) = 0)
    by (apply count_dial_acts; [by intros []|done]).
  clear Hall. destruct f0 as [p n sv c rq tr df]; simpl in Hd, Hp, Hi, Ho; subst df.
  destruct r as [[e|]|o]; run_request.
  all: rewrite <- ?app_assoc, ?count_app, ?Hp, ?Hi, ?Ho.
  all: split_and!; try reflexivity; find_elem.
Qed.

End Cleanup.

(** *** The response path *)

Section Response.
Context (Version RequestOptionOneTimeAuth : Z) (w : World).
Local Abbreviation Dispatch := (Dispatch Version RequestOptionOneTimeAuth).

(** The dial phase does not read the response path. *)
Lemma dial_phase_with_response rd pr this network f :
  dial_phase (with_response w rd pr) this network f = dial_phase w this network f.
Proof. reflexivity. Qed.

(** C6: the value [Dispatch] returns does not depend on the response path:
    it is the same for every outcome of [ReadTCPResponse] and of the
    response pipe.  Once the header and the first payload are written,
    [Dispatch] returns nil.  In stream mode a failed [ReadTCPResponse] is
    logged and the goroutine unlocks without piping anything to the
    Output; otherwise the goroutine pipes into the Output and unlocks,
    whatever error ends the pipe. *)
Theorem C6_response_failure_not_returned this destination payload ray rd pr :
  let r := Dispatch (with_response w rd pr) this destination payload ray in
  r.1 = (Dispatch w this destination payload ray).1 ∧
  ∀ sv c a req,
    server r.2 = Some sv → conn r.2 = Some c →
    GetTypedAccount w (PickUser w sv) = inl (protocol.IsShadowsocks a) →
    request r.2 = Some req →
    (protocol.Command req = protocol.RequestCommandTCP →
       ∃ bw, WriteTCPRequest w req c = (Some bw, None) ∧
             Write w (TCPBody bw) payload = None) →
    (protocol.Command req = protocol.RequestCommandUDP →
       Write w (UDPWriter c req) payload = None) →
    let user := PickUser w sv in
    r.1 = Returned None ∧
    (∀ e, protocol.Command req = protocol.RequestCommandTCP →
          rd user c = inr e →
          Go [CallReadTCPResponse user c;
              LogWarning ("Shadowsocks|Client: Failed to read response: " +:+ e);
              MutexUnlock] ∈ trace r.2) ∧
    (∀ reader, protocol.Command req = protocol.RequestCommandTCP →
          rd user c = inl reader →
          Go [CallReadTCPResponse user c;
              PipeToOutput (TCPResponse reader) ray (pr (TCPResponse reader));
              MutexUnlock] ∈ trace r.2) ∧
    (protocol.Command req = protocol.RequestCommandUDP →
          Go [PipeToOutput (UDPReader 16 c user) ray (pr (UDPReader 16 c user));
              MutexUnlock] ∈ trace r.2).
Proof.
  intros r. split.
  - subst r. rewrite !Dispatch_unfold, dial_phase_with_response.
    destruct (dial_phase w this _ _) as [[[e|]|o] f0]; [done| |done].
    destruct f0 as [p n sv c rq tr df].
    unfold_request; sync_world.
    repeat (next_case; try congruence; unfold_request; sync_world); reflexivity.
  - intros sv c a req Hs Hc Ha.
    destruct (Dispatch_dialled _ _ _ _ _ _ _ _ _ Hs Hc) as (p & n & tr & Hall & Hr).
    subst r. rewrite Hr. clear Hr Hs Hc.
    unfold_request; sync_world. rewrite Ha. unfold_request.
    destruct (decide (v2net.network destination = v2net.Network_TCP)) as [Hnet|Hnet].
    + destruct (decide (_ ∨ _)) as [Hota|Hota]; unfold_request; sync_world.
      all: destruct (decide (_ = _)); [|done]; unfold_request; sync_world.
      all: destruct (WriteTCPRequest w _ c) as [[b|] [?|]] eqn:HW;
           unfold_request; sync_world.
      all: try (destruct (Write w (TCPBody b) payload) eqn:HWr;
                unfold_request; sync_world).
      all: try (destruct (decide (_ = _)); [done|]; unfold_request).
      all: intros [= <-] HT _; destruct HT as (bw & HT1 & HT2); [done|].
      all: rewrite HW in HT1; try congruence.
      all: injection HT1 as <-; try congruence.
      all: split; [reflexivity|].
      all: unfold stream_reader; sync_world.
      all: split_and!; try done.
      all: intros ? _ Hrd; rewrite Hrd, <- ?app_assoc; find_elem.
    + destruct (decide (_ ∨ _)) as [Hota|Hota]; unfold_request; sync_world.
      all: destruct (decide (_ = _)); [done|]; unfold_request; sync_world.
      all: destruct (decide (_ = _)); [|done]; unfold_request; sync_world.
      all: destruct (Write w _ _) eqn:HWr; unfold_request; sync_world.
      all: intros [= <-] _ HU; specialize (HU eq_refl); try congruence.
      all: split; [reflexivity|].
      all: unfold datagram_reader; sync_world.
      all: split_and!; try done.
      all: intros _; rewrite <- ?app_assoc; find_elem.
Qed.

End Response.

(** *** Failures of the request phase *)

Section Failures.
Context (Version RequestOptionOneTimeAuth : Z) (w : World).
Local Abbreviation Dispatch := (Dispatch Version RequestOptionOneTimeAuth w).

(** C8, as amended: when the account of the picked user cannot be
    resolved, [Dispatch] returns the wrapped error before the header is
    handed to the codec and before anything is written to the connection.
    The header exists by then with its version, command, address and
    port; its user and option are not set. *)
Theorem C8_account_failure this destination payload ray sv c e :
  let r := Dispatch this destination payload ray in
  server r.2 = Some sv → conn r.2 = Some c →
  GetTypedAccount w (PickUser w sv) = inr e →
  r.1 = Returned (Some ("Shadowsocks|Client: Failed to get a valid user account: " +:+ e)) ∧
  request r.2 =
    Some {| protocol.Version := Version;
            protocol.Command :=
              if decide (v2net.network destination = v2net.Network_TCP)
              then protocol.RequestCommandTCP else protocol.RequestCommandUDP;
            protocol.Option := 0;
            protocol.Address := v2net.Address destination;
            protocol.Port := v2net.Port destination;
            protocol.ReqUser := None |} ∧
  count writes (trace r.2) = 0.
Proof.
  intros r Hs Hc Ha.
  destruct (Dispatch_dialled _ _ _ _ _ _ _ _ _ Hs Hc) as (p & n & tr & Hall & Hr).
  subst r. rewrite Hr. clear Hr Hs Hc.
  assert (Hw : count writes tr = 0) by (apply count_dial_acts; [by intros []|done]).
  unfold_request. rewrite Ha. unfold_request.
  by rewrite <- ?app_assoc, ?count_app, Hw.
Qed.

(** C9: [Dispatch] panics at the type assertion exactly when it dialled a
    server and the account resolved for the picked user has a dynamic type
    other than the Shadowsocks account; the foreign type is the one the
    panic reports. *)
Theorem C9_foreign_account_panics this destination payload ray t :
  let r := Dispatch this destination payload ray in
  r.1 = Panicked (TypeAssertion t) ↔
  ∃ sv c, server r.2 = Some sv ∧ conn r.2 = Some c ∧
          GetTypedAccount w (PickUser w sv) = inl (protocol.IsForeign t).
Proof.
  intros r. split.
  - subst r. rewrite Dispatch_unfold.
    destruct (dial_phase w this _ _) as [r f0] eqn:Hdial.
    apply dial_phase_frame in Hdial as (Hd & Hrq & _ & Hc).
    destruct f0 as [p n sv0 c0 rq tr df]; simpl in Hd, Hrq, Hc; subst df rq.
    destruct r as [[e'|]|o]; [done| |by destruct Hc as [-> _]].
    run_request; intros [= <-]. all: by eexists _, _.
  - intros (sv & c & Hs & Hc & Ha).
    destruct (Dispatch_dialled _ _ _ _ _ _ _ _ _ Hs Hc) as (p & n & tr & Hall & Hr).
    subst r. rewrite Hr. unfold_request. rewrite Ha. by unfold_request.
Qed.


End Failures.

(** *** The scheduler and the cleanup *)

(** What a schedule runs to is reachable. *)
Lemma run_reachable schedule : ∀ c c',
  sched.run schedule c = Some c' → rtc sched.step c c'.
Proof.
  induction schedule as [|[i|] s IH]; intros c c'; simpl.
  - intros [= ->]. apply rtc_refl.
  - destruct (sched.step_bg i c) as [c1|] eqn:H1; simpl; [|done].
    intros H. eapply rtc_l; [right; eauto|auto].
  - destruct (sched.step_fg c) as [c1|] eqn:H1; simpl; [|done].
    intros H. eapply rtc_l; [by left|auto].
Qed.


Section Waiting.
Import sched sync.

(** The invariant holds at the start, is kept by the steps of [Dispatch]
    and of the goroutine, and so holds in every reachable configuration. *)
Lemma inv_start calls : synchronised calls = true → inv (start calls).
Proof.
  intros [H|H]%orb_true_iff.
  - by apply inv_alone.
  - by apply inv_before.
Qed.

Lemma inv_step_fg c c' : inv c → step_fg c = Some c' → inv c'.
Proof.
  destruct c as [f b l h]. unfold step_fg; simpl.
  intros Hinv; inversion Hinv as
    [? Hb Hq|? Hb Hl Hs Hc|? body rest Hb Hl Hf Hu Hw Hc|? body Hb Hl Hu Hw Hc
    |? Hb Hl Hw Hc|? Hb Hl Hq]; simpl in *; subst.
  - destruct f as [|a f]; [done|]. simpl in Hq. apply andb_true_iff in Hq as [Ha Hq].
    destruct a; try done; intros [= <-]; by apply inv_alone.
  - destruct f as [|a f]; [done|].
    destruct a; simpl in Hs; try done;
      try (intros [= <-]; apply inv_before; [done|done|exact Hs|still_clean Hc]).
    destruct f as [|[] f]; try done. apply andb_true_iff in Hs as [Hu Hw].
    intros [= <-]. eapply inv_locked; simpl; try done. still_clean Hc.
  - intros [= <-]. eapply inv_running; [done|done|done|done|still_clean Hc].
  - destruct f as [|a f]; [done|].
    destruct a; simpl in Hw; try done;
      (intros [= <-]; eapply inv_running; [done|done|done|exact Hw|still_clean Hc]).
  - destruct f as [|a f]; [done|].
    destruct a; simpl in Hw; try done;
      try (intros [= <-]; apply inv_released; [done|done|exact Hw|still_clean Hc]).
    intros [= <-]. by apply inv_joined.
  - destruct f as [|a f]; [done|]. simpl in Hq. apply andb_true_iff in Hq as [Ha Hq].
    destruct a; try done; intros [= <-]; by apply inv_joined.
Qed.

Lemma inv_step_bg i c c' : inv c → step_bg i c = Some c' → inv c'.
Proof.
  destruct c as [f b l h]. unfold step_bg; simpl.
  intros Hinv; inversion Hinv as
    [? Hb Hq|? Hb Hl Hs Hc|? body rest Hb Hl Hf Hu Hw Hc|? body Hb Hl Hu Hw Hc
    |? Hb Hl Hw Hc|? Hb Hl Hq]; simpl in *; subst; try done.
  - destruct i as [|i]; simpl; [|done].
    destruct body as [|a body]; [done|].
    destruct a; simpl in Hu;
      try (intros [= <-]; eapply inv_running; [done|done|exact Hu|done|still_clean Hc]).
    destruct body; [|done]. intros [= <-].
    apply inv_released; [done|done|done|still_clean Hc].
  - by destruct i.
  - by destruct i.
Qed.

Lemma inv_reachable calls c :
  synchronised calls = true → reachable calls c → inv c.
Proof.
  intros Hs Hr. unfold reachable in Hr. revert c Hr.
  apply rtc_ind_r; [by apply inv_start|].
  intros c1 c2 _ [Hfg|[i Hbg]] IH; eauto using inv_step_fg, inv_step_bg.
Qed.

(** A synchronised call sequence releases nothing before every goroutine
    it starts has been started and has run to its end. *)
Lemma synchronised_safe calls c :
  synchronised calls = true → reachable calls c → cleaned c = true →
  quiescent c = true ∧ forallb quiet (fg c) = true.
Proof.
  intros Hs Hr Hc. pose proof (inv_reachable calls c Hs Hr) as Hinv.
  inversion Hinv as
    [? Hb Hq|? Hb Hl Hsp Hcl|? body rest Hb Hl Hf Hu Hw Hcl|? body Hb Hl Hu Hw Hcl
    |? Hb Hl Hw Hcl|? Hb Hl Hq]; subst; try congruence.
  - unfold quiescent. by rewrite Hb.
  - unfold quiescent. by rewrite Hb.
Qed.

(** Dial-phase calls in front of a call sequence do not change whether it
    is synchronised. *)
Lemma plain_dial_act a : dial_act a = true → plain a = true.
Proof. by destruct a. Qed.

Lemma quiet_prefix pre l :
  forallb dial_act pre = true → forallb quiet (pre ++ l) = forallb quiet l.
Proof.
  induction pre as [|a pre IH]; [done|]. simpl.
  intros [Ha Hpre]%andb_true_iff. rewrite IH by done. by destruct a.
Qed.

Lemma spawns_prefix pre l :
  forallb dial_act pre = true → spawns (pre ++ l) = spawns l.
Proof.
  induction pre as [|a pre IH]; [done|]. simpl.
  intros [Ha Hpre]%andb_true_iff. rewrite <- IH by done. by destruct a.
Qed.

Lemma synchronised_prefix pre l :
  forallb dial_act pre = true → synchronised (pre ++ l) = synchronised l.
Proof.
  intros H. unfold synchronised. by rewrite quiet_prefix, spawns_prefix.
Qed.

End Waiting.

Section Join.
Context (Version RequestOptionOneTimeAuth : Z) (w : World).
Local Abbreviation Dispatch := (Dispatch Version RequestOptionOneTimeAuth w).

(** Unless the first datagram write fails, the calls of [Dispatch] are
    synchronised with the response goroutine. *)
Lemma Dispatch_synchronised this destination payload ray :
  v2net.network destination = v2net.Network_TCP ∨
  (∀ c req, Write w (UDPWriter c req) payload = None) →
  sync.synchronised (trace (Dispatch this destination payload ray).2) = true.
Proof.
  intros Hok. rewrite Dispatch_unfold.
  destruct (dial_phase w this _ _) as [r f0] eqn:Hdial.
  apply dial_phase_frame in Hdial as (Hd & _ & Hall & _).
  destruct f0 as [p n sv c rq tr df]; simpl in Hd, Hall; subst df.
  destruct r as [[e|]|o]; unfold_request;
    [by rewrite synchronised_prefix| |by rewrite synchronised_prefix].
  repeat (next_case; try congruence; unfold_request).
  all: rewrite <- ?app_assoc, synchronised_prefix by done.
  all: try reflexivity.
  all: try (unfold stream_reader; destruct (ReadTCPResponse w _ _); reflexivity).
  all: destruct Hok as [Hok|Hok]; [congruence|].
  all: match goal with H : Write w (UDPWriter _ _) _ = Some _ |- _ =>
         rewrite Hok in H; discriminate
       end.
Qed.

(** In stream mode, and in datagram mode when the first write succeeds, no
    deferred release runs before the response goroutine has run to its
    end: in every interleaving, once a cleanup call has been made, no
    goroutine is left to start and every started one has finished. *)
Theorem cleanup_follows_reader this destination payload ray cfg :
  v2net.network destination = v2net.Network_TCP ∨
  (∀ c req, Write w (UDPWriter c req) payload = None) →
  sched.reachable (trace (Dispatch this destination payload ray).2) cfg →
  sched.cleaned cfg = true →
  sched.quiescent cfg = true ∧ forallb sync.quiet (sched.fg cfg) = true.
Proof.
  intros Hok. apply synchronised_safe. by apply Dispatch_synchronised.
Qed.

End Join.

(** *** How a dispatch ends *)

Section Ending.
Context (Version RequestOptionOneTimeAuth : Z) (w : World).
Local Abbreviation Dispatch := (Dispatch Version RequestOptionOneTimeAuth w).

(** [Dispatch] returns nil exactly when a dial succeeded, the account of
    the picked user is a Shadowsocks account, and the writes of the
    request phase succeeded: in stream mode the header (with a non-nil
    body writer) and the payload, in datagram mode the first packet. *)
Theorem Dispatch_returns_nil_iff this destination payload ray :
  let r := Dispatch this destination payload ray in
  r.1 = Returned None ↔
  ∃ sv c a req,
    server r.2 = Some sv ∧ conn r.2 = Some c ∧
    GetTypedAccount w (PickUser w sv) = inl (protocol.IsShadowsocks a) ∧
    request r.2 = Some req ∧
    (protocol.Command req = protocol.RequestCommandTCP →
       ∃ bw, WriteTCPRequest w req c = (Some bw, None) ∧
             Write w (TCPBody bw) payload = None) ∧
    (protocol.Command req = protocol.RequestCommandUDP →
       Write w (UDPWriter c req) payload = None).
Proof.
  intros r. split.
  - subst r. rewrite Dispatch_unfold.
    destruct (dial_phase w this _ _) as [r f0] eqn:Hdial.
    apply dial_phase_frame in Hdial as (Hd & Hrq & _ & Hc).
    destruct f0 as [p n sv0 c0 rq tr df]; simpl in Hd, Hrq, Hc; subst df rq.
    destruct r as [[e'|]|o]; [done| |by destruct Hc as [-> _]].
    run_request; intros [= ]; eexists _, _, _, _.
    all: split_and!; try reflexivity; try eassumption; try done; cbn.
    all: intros _; eexists; split; eassumption.
  - intros (sv & c & a & req & Hs & Hc & Ha & Hreq & HT & HU). revert Hreq HT HU.
    destruct (Dispatch_dialled _ _ _ _ _ _ _ _ _ Hs Hc) as (p & n & tr & Hall & Hr).
    subst r. rewrite Hr. clear Hr Hs Hc.
    unfold_request. rewrite Ha. unfold_request.
    destruct (decide (v2net.network destination = v2net.Network_TCP)) as [Hnet|Hnet].
    + destruct (decide (_ ∨ _)) as [Hota|Hota]; unfold_request.
      all: destruct (decide (_ = _)); [|done]; unfold_request.
      all: destruct (WriteTCPRequest w _ c) as [[b|] [?|]] eqn:HW; unfold_request.
      all: try (destruct (Write w (TCPBody b) payload) eqn:HWr; unfold_request).
      all: try (destruct (decide (_ = _)); [done|]; unfold_request).
      all: intros [= <-] HT _; destruct HT as (bw & HT1 & HT2); [done|].
      all: rewrite HW in HT1; try congruence.
    + destruct (decide (_ ∨ _)) as [Hota|Hota]; unfold_request.
      all: destruct (decide (_ = _)); [done|]; unfold_request.
      all: destruct (decide (_ = _)); [|done]; unfold_request.
      all: destruct (Write w _ _) eqn:HWr; unfold_request.
      all: intros [= <-] _ HU; specialize (HU eq_refl); congruence.
Qed.

(** Every error [Dispatch] returns is one of four wrapped messages, each
    with its cause: no dial succeeded; the account could not be resolved;
    in stream mode the header could not be written; the payload could not
    be written. *)
Theorem Dispatch_error_causes this destination payload ray msg :
  let r := Dispatch this destination payload ray in
  r.1 = Returned (Some msg) →
  (∃ e, msg = "Shadowsocks|Client: Failed to find an available destination:" +:+ e ∧
        conn r.2 = None) ∨
  (∃ sv e, msg = "Shadowsocks|Client: Failed to get a valid user account: " +:+ e ∧
           server r.2 = Some sv ∧ GetTypedAccount w (PickUser w sv) = inr e) ∨
  (∃ req c bw e, msg = "Shadowsock|Client: Failed to write request: " +:+ e ∧
                 request r.2 = Some req ∧ conn r.2 = Some c ∧
                 v2net.network destination = v2net.Network_TCP ∧
                 WriteTCPRequest w req c = (Some bw, Some e)) ∨
  (∃ req c e, msg = "Shadowsocks|Client: Failed to write payload: " +:+ e ∧
              request r.2 = Some req ∧ conn r.2 = Some c ∧
              ((∃ bw, WriteTCPRequest w req c = (Some bw, None) ∧
                      Write w (TCPBody bw) payload = Some e) ∨
               (v2net.network destination ≠ v2net.Network_TCP ∧
                Write w (UDPWriter c req) payload = Some e))).
Proof.
  simpl. rewrite Dispatch_unfold.
  destruct (dial_phase w this _ _) as [r f0] eqn:Hdial.
  apply dial_phase_frame in Hdial as (Hd & Hrq & _ & Hc).
  destruct f0 as [p n sv0 c0 rq tr df]; simpl in Hd, Hrq, Hc; subst df rq.
  destruct r as [[e'|]|o].
  - simpl. intros [= <-]. left. eauto.
  - run_request; intros [= <-].
    all: first
      [ solve [right; left; eexists _, _; split_and!;
               [reflexivity|reflexivity|eassumption]]
      | solve [right; right; left; eexists _, _, _, _; split_and!;
               [reflexivity|reflexivity|reflexivity|assumption|eassumption]]
      | solve [right; right; right; eexists _, _, _; split_and!;
               [reflexivity|reflexivity|reflexivity|
                left; eexists; split; eassumption]]
      | solve [right; right; right; eexists _, _, _; split_and!;
               [reflexivity|reflexivity|reflexivity|
                right; split; [assumption|eassumption]]] ].
  - destruct Hc as [-> _]. done.
Qed.

(** The releases are the last calls [Dispatch] makes, in reverse order of
    their registration: the body writer and the buffered writer when they
    were registered, then the Output is closed, the Input released, and
    the payload released last. *)
Theorem releases_run_last_in_reverse this destination payload ray :
  let r := Dispatch this destination payload ray in
  ∃ body rel,
    trace r.2 = body ++ rel ++
                [OutputClose ray; InputRelease ray; PayloadRelease payload] ∧
    forallb (λ a, negb (sched.cleanup a)) body = true ∧
    (rel = [] ∨ (∃ c, conn r.2 = Some c ∧ rel = [BufferedWriterRelease c]) ∨
     (∃ bw c, conn r.2 = Some c ∧ rel = [WriterRelease bw; BufferedWriterRelease c])).
Proof.
  simpl. rewrite Dispatch_unfold.
  destruct (dial_phase w this _ _) as [r f0] eqn:Hdial.
  apply dial_phase_frame in Hdial as (Hd & _ & Hall & _).
  assert (Hcl : forallb (λ a, negb (sched.cleanup a)) (trace f0) = true).
  { apply forallb_dial_acts; [by intros []|done]. }
  clear Hall. destruct f0 as [p n sv c rq tr df]; simpl in Hd, Hcl; subst df.
  destruct r as [[e|]|o]; run_request.
  all: first
    [ eexists _, []; split; [reflexivity|];
      split; [by rewrite ?forallb_app, Hcl|by left]
    | eexists _, [_]; split; [reflexivity|];
      split; [by rewrite ?forallb_app, Hcl|right; left; by eexists]
    | eexists _, [_; _]; split; [reflexivity|];
      split; [by rewrite ?forallb_app, Hcl|right; right; by eexists _, _] ].
Qed.

(** A dialled connection is marked not reusable exactly once, right after
    the dial phase and the log line and before any other call; without a
    connection [SetReusable] is never called. *)
Theorem connection_marked_not_reusable this destination payload ray :
  let r := Dispatch this destination payload ray in
  match conn r.2 with
  | Some c =>
      ∃ pre via rest,
        trace r.2 = pre ++ LogInfo destination via :: SetReusable c false :: rest ∧
        forallb dial_act pre = true ∧ count is_set_reusable rest = 0
  | None => count is_set_reusable (trace r.2) = 0
  end.
Proof.
  simpl. rewrite Dispatch_unfold.
  destruct (dial_phase w this _ _) as [r f0] eqn:Hdial.
  apply dial_phase_frame in Hdial as (Hd & _ & Hall & Hc).
  assert (Hn : count is_set_reusable (trace f0) = 0)
    by (apply count_dial_acts; [by intros []|done]).
  destruct f0 as [p n sv c rq tr df]; simpl in Hd, Hall, Hc, Hn; subst df.
  destruct r as [[e|]|o].
  - simpl. subst c. by rewrite count_app, Hn.
  - destruct Hc as [[sv0 ->] [c0 ->]]. run_request.
    all: rewrite <- ?app_assoc; eexists tr, _, _; split; [reflexivity|by split].
  - destruct Hc as [_ ->]. simpl. by rewrite count_app, Hn.
Qed.

(** [Dispatch] starts at most one goroutine and takes the mutex at most
    twice.  When it returns nil it has started one and taken the mutex
    twice.  In stream mode a goroutine is started only when [Dispatch]
    returns nil. *)
Theorem goroutine_started_at_most_once this destination payload ray :
  let r := Dispatch this destination payload ray in
  count is_go (trace r.2) ≤ 1 ∧ count is_lock (trace r.2) ≤ 2 ∧
  (r.1 = Returned None →
     count is_go (trace r.2) = 1 ∧ count is_lock (trace r.2) = 2) ∧
  (v2net.network destination = v2net.Network_TCP →
     count is_go (trace r.2) = 1 → r.1 = Returned None).
Proof.
  simpl. rewrite Dispatch_unfold.
  destruct (dial_phase w this _ _) as [r f0] eqn:Hdial.
  apply dial_phase_frame in Hdial as (Hd & _ & Hall & Hc).
  assert (Hg : count is_go (trace f0) = 0)
    by (apply count_dial_acts; [by intros []|done]).
  assert (Hl : count is_lock (trace f0) = 0)
    by (apply count_dial_acts; [by intros []|done]).
  clear Hall. destruct f0 as [p n sv c rq tr df]; simpl in Hd, Hg, Hl, Hc; subst df.
  destruct r as [[e|]|o]; [| |destruct Hc as [-> _]]; run_request.
  all: rewrite <- ?app_assoc, ?count_app, ?Hg, ?Hl.
  all: cbn; split_and!; try lia; try done.
  all: absurd_case.
Qed.

(** Whatever the response path does, the goroutine [Dispatch] starts
    unlocks the mutex exactly once, as its last call, and pipes into the
    Output of the ray given to [Dispatch] and into nothing else. *)
Theorem goroutine_unlocks_last this destination payload ray body :
  let r := Dispatch this destination payload ray in
  Go body ∈ trace r.2 →
  sync.unlocks_last body = true ∧
  ∀ src out err, PipeToOutput src out err ∈ body → out = ray.
Proof.
  simpl. rewrite Dispatch_unfold.
  destruct (dial_phase w this _ _) as [r f0] eqn:Hdial.
  apply dial_phase_frame in Hdial as (Hd & _ & Hall & _).
  destruct f0 as [p n sv c rq tr df]; simpl in Hd, Hall; subst df.
  assert (Hno : ∀ a, a ∈ tr → dial_act a = true) by (intros; by eapply dial_act_elem).
  destruct r as [[e|]|o]; run_request.
  all: rewrite <- ?app_assoc; intros H.
  all: rewrite ?elem_of_app, ?elem_of_cons, ?elem_of_nil in H.
  all: repeat match goal with H : _ ∨ _ |- _ => destruct H as [H|H] end.
  all: try (apply Hno in H; discriminate).
  all: try discriminate; try done.
  all: injection H as ->.
  all: unfold stream_reader, datagram_reader.
  all: try destruct (ReadTCPResponse w _ _).
  all: split; [reflexivity|].
  all: intros src out err Hin; cbn in Hin.
  all: rewrite ?elem_of_cons, ?elem_of_nil in Hin.
  all: repeat match goal with H : _ ∨ _ |- _ => destruct H as [H|H] end.
  all: try discriminate; try done.
  all: by injection Hin.
Qed.
End Ending.

(** *** No deadlock on the mutex *)

Section Progress.
Import sched sync.

(** A configuration of a synchronised call sequence that cannot move is a
    final one. *)
Lemma inv_stuck c : inv c → stuck c → fg c = [] ∧ quiescent c = true.
Proof.
  destruct c as [f b l h]. unfold stuck, step_fg, quiescent; simpl.
  intros Hinv [Hfg Hbg]; inversion Hinv as
    [? Hb Hq|? Hb Hl Hs Hc|? body rest Hb Hl Hf Hu Hw Hc|? body Hb Hl Hu Hw Hc
    |? Hb Hl Hw Hc|? Hb Hl Hq]; simpl in *; subst.
  - destruct f as [|a f]; [done|]. simpl in Hq. by destruct a.
  - destruct f as [|a f]; [done|]. by destruct a.
  - done.
  - specialize (Hbg 0). unfold step_bg in Hbg; simpl in Hbg.
    destruct body as [|a body]; [done|]. by destruct a.
  - destruct f as [|a f]; [done|]. by destruct a.
  - destruct f as [|a f]; [done|]. simpl in Hq. by destruct a.
Qed.

Lemma abandon_step_fg c c' : inv_abandon c → step_fg c = Some c' → inv_abandon c'.
Proof.
  destruct c as [f b l h]. unfold step_fg; simpl.
  intros Hinv; inversion Hinv as
    [? Hb Hl Ha|? body rest Hb Hf Hu Hq|? body Hb Hu Hq|? Hb Hq]; simpl in *; subst.
  - destruct f as [|a f]; [done|].
    destruct a; simpl in Ha; try done;
      try (intros [= <-]; by apply abandon_before).
    destruct f as [|[] f]; try done. apply andb_true_iff in Ha as [Hu Hq].
    intros [= <-]. by eapply abandon_locked.
  - intros [= <-]. by eapply abandon_running.
  - destruct f as [|a f]; [done|]. simpl in Hq. apply andb_true_iff in Hq as [Ha Hq].
    destruct a; try done; intros [= <-]; by eapply abandon_running.
  - destruct f as [|a f]; [done|]. simpl in Hq. apply andb_true_iff in Hq as [Ha Hq].
    destruct a; try done; intros [= <-]; by eapply abandon_done.
Qed.

Lemma abandon_step_bg i c c' : inv_abandon c → step_bg i c = Some c' → inv_abandon c'.
Proof.
  destruct c as [f b l h]. unfold step_bg; simpl.
  intros Hinv; inversion Hinv as
    [? Hb Hl Ha|? body rest Hb Hf Hu Hq|? body Hb Hu Hq|? Hb Hq];
    simpl in *; subst; try done.
  - destruct i as [|i]; simpl; [|done].
    destruct body as [|a body]; [done|].
    destruct a; simpl in Hu;
      try (intros [= <-]; by eapply abandon_running).
    destruct body; [|done]. intros [= <-]. by apply abandon_done.
  - by destruct i.
Qed.

Lemma abandon_reachable calls c :
  abandons calls = true → reachable calls c → inv_abandon c.
Proof.
  intros Hs Hr. unfold reachable in Hr. revert c Hr.
  apply rtc_ind_r; [by apply abandon_before|].
  intros c1 c2 _ [Hfg|[i Hbg]] IH; eauto using abandon_step_fg, abandon_step_bg.
Qed.

Lemma abandon_stuck c : inv_abandon c → stuck c → fg c = [] ∧ quiescent c = true.
Proof.
  destruct c as [f b l h]. unfold stuck, step_fg, quiescent; simpl.
  intros Hinv [Hfg Hbg]; inversion Hinv as
    [? Hb Hl Ha|? body rest Hb Hf Hu Hq|? body Hb Hu Hq|? Hb Hq]; simpl in *; subst.
  - destruct f as [|a f]; [done|]. by destruct a.
  - done.
  - specialize (Hbg 0). unfold step_bg in Hbg; simpl in Hbg.
    destruct body as [|a body]; [done|]. by destruct a.
  - destruct f as [|a f]; [done|]. simpl in Hq. by destruct a.
Qed.

Lemma abandons_prefix pre l :
  forallb dial_act pre = true → abandons (pre ++ l) = abandons l.
Proof.
  induction pre as [|a pre IH]; [done|]. simpl.
  intros [Ha Hpre]%andb_true_iff. rewrite <- IH by done. by destruct a.
Qed.
End Progress.

Section NoDeadlock.
Context (Version RequestOptionOneTimeAuth : Z) (w : World).
Local Abbreviation Dispatch := (Dispatch Version RequestOptionOneTimeAuth w).

(** The calls of [Dispatch] either wait for the goroutine they start, or,
    when the first datagram write fails, never take the mutex again. *)
Lemma Dispatch_shape this destination payload ray :
  let calls := trace (Dispatch this destination payload ray).2 in
  sync.synchronised calls = true ∨ abandons calls = true.
Proof.
  simpl. rewrite Dispatch_unfold.
  destruct (dial_phase w this _ _) as [r f0] eqn:Hdial.
  apply dial_phase_frame in Hdial as (Hd & _ & Hall & _).
  destruct f0 as [p n sv c rq tr df]; simpl in Hd, Hall; subst df.
  destruct r as [[e|]|o]; unfold_request;
    [left; by rewrite synchronised_prefix| |left; by rewrite synchronised_prefix].
  repeat (next_case; try congruence; unfold_request).
  all: rewrite <- ?app_assoc, synchronised_prefix, abandons_prefix by done.
  all: try (left; reflexivity).
  all: try (left; unfold stream_reader; destruct (ReadTCPResponse w _ _); reflexivity).
  all: right; reflexivity.
Qed.

(** No interleaving of [Dispatch] with its response goroutine deadlocks:
    a reachable configuration in which neither side can move is one where
    [Dispatch] has made all its calls and the goroutine has finished. *)
Theorem Dispatch_never_deadlocks this destination payload ray cfg :
  sched.reachable (trace (Dispatch this destination payload ray).2) cfg →
  stuck cfg →
  sched.fg cfg = [] ∧ sched.quiescent cfg = true.
Proof.
  intros Hr Hstuck.
  destruct (Dispatch_shape this destination payload ray) as [Hs|Ha].
  - eapply inv_stuck; [|done]. by eapply inv_reachable.
  - eapply abandon_stuck; [|done]. by eapply abandon_reachable.
Qed.
End NoDeadlock.

(** *** The rotation of the picker *)

Lemma PickServer_turn p i :
  protocol.serverlist (protocol.PickServer p).2 = protocol.serverlist p ∧
  turn (protocol.PickServer p).2 i = turn p (S i).
Proof.
  destruct (protocol.serverlist p) as [|s l] eqn:Hl.
  - unfold protocol.PickServer. rewrite Hl. simpl. split; [done|].
    unfold turn. by rewrite Hl.
  - rewrite PickServer_nonempty by (by rewrite Hl). simpl.
    split; [done|]. apply turn_advance.
Qed.

Lemma count_no_dial_acts p l :
  (∀ a, p a = true → dial_act a = true) →
  forallb (λ a, negb (dial_act a)) l = true → count p l = 0.
Proof.
  intros Hp. induction l as [|a l IH]; [done|]. simpl.
  intros [Ha Hl]%andb_true_iff. unfold count in *. simpl.
  destruct (p a) eqn:Hpa; [|auto].
  apply Hp in Hpa. by rewrite Hpa in Ha.
Qed.

Section Rotation.
Context (w : World).

(** One attempt picks once. *)
Lemma attempt_picks this network f r f' :
  attempt w this network f = (r, f') →
  picker f' = (protocol.PickServer (picker f)).2 ∧
  count is_pick (trace f') = count is_pick (trace f) + 1.
Proof.
  unfold attempt, pick_server, mbind, M_bind, set_server, dial, set_conn, mret, M_ret, raise.
  destruct (protocol.PickServer (picker f)) as [[sv|] p]; simpl.
  - destruct (Dial w (dialed f) _ _); simpl; intros [= <- <-]; simpl;
      (split; [done|]); rewrite !count_app; simpl; unfold count; simpl; lia.
  - intros [= <- <-]; simpl. split; [done|]. by rewrite !count_app.
Qed.

(** The retry loop leaves the picker advanced by the number of its picks,
    of which there are at most [n]. *)
Lemma loop_picks this network n : ∀ f r f',
  retry.loop n 100 (attempt w this network) f = (r, f') →
  ∃ k, k ≤ n ∧ (n ≠ 0 → 1 ≤ k) ∧
       count is_pick (trace f') = count is_pick (trace f) + k ∧
       protocol.serverlist (picker f') = protocol.serverlist (picker f) ∧
       ∀ i, turn (picker f') i = turn (picker f) (k + i).
Proof.
  induction n as [|n IH]; intros f r f'; simpl.
  - intros [= <- <-]. exists 0. split_and!; done || lia.
  - unfold mbind at 1, M_bind at 1.
    destruct (attempt w this network f) as [[[e|]|o] f1] eqn:Ha;
      apply attempt_picks in Ha as (Hp & Hc).
    + destruct n as [|n].
      * intros [= <- <-]. exists 1. rewrite Hp. split_and!; try done; try lia.
        -- apply PickServer_turn with (i := 0).
        -- intros i. apply PickServer_turn.
      * unfold mbind at 1, M_bind at 1.
        change (emit (Sleep 100) f1) with (Next (), (emit (Sleep 100) f1).2).
        intros Hl. apply IH in Hl as (k & Hk & Hk1 & Hcnt & Hsl & Ht).
        change (picker (emit (Sleep 100) f1).2) with (picker f1) in *.
        change (trace (emit (Sleep 100) f1).2) with (trace f1 ++ [Sleep 100]) in *.
        rewrite count_app in Hcnt. change (count is_pick [Sleep 100]) with 0 in Hcnt.
        exists (S k). rewrite Hp in *. split_and!; try lia.
        -- rewrite Hsl. apply PickServer_turn with (i := 0).
        -- intros i. rewrite Ht. destruct (PickServer_turn (picker f) (k + i)) as [_ ->].
           done.
    + intros [= <- <-]. exists 1. rewrite Hp. split_and!; try done; try lia.
      * apply PickServer_turn with (i := 0).
      * intros i. apply PickServer_turn.
    + intros [= <- <-]. exists 1. rewrite Hp. split_and!; try done; try lia.
      * apply PickServer_turn with (i := 0).
      * intros i. apply PickServer_turn.
Qed.
End Rotation.

Section Continue.
Context (Version RequestOptionOneTimeAuth : Z) (w : World).
Local Abbreviation Dispatch := (Dispatch Version RequestOptionOneTimeAuth w).

(** A dispatch picks a server between one and five times and leaves the
    shared picker advanced by that number of picks, over the same pool:
    the next dispatch continues the rotation where this one stopped. *)
Theorem Dispatch_continues_rotation this destination payload ray :
  let r := Dispatch this destination payload ray in
  let k := count is_pick (trace r.2) in
  1 ≤ k ≤ 5 ∧
  protocol.serverlist (picker r.2) = protocol.serverlist (serverPicker this) ∧
  ∀ i, turn (picker r.2) i = turn (serverPicker this) (k + i).
Proof.
  simpl. rewrite Dispatch_unfold.
  destruct (dial_phase w this _ _) as [r f0] eqn:Hdial.
  pose proof (dial_phase_frame _ _ _ _ _ _ _ Hdial) as (Hd & _ & _ & _).
  apply loop_picks in Hdial as (k & Hk & Hk1 & Hcnt & Hsl & Ht).
  simpl in Hk, Hk1, Hcnt, Hsl, Ht. change (count is_pick []) with 0 in Hcnt.
  specialize (Hk1 ltac:(done)).
  assert (Hdef : count is_pick (deferred f0) = 0) by (by rewrite Hd).
  destruct r as [[e|]|o].
  - simpl. rewrite count_app, Hcnt, Hdef, Nat.add_0_r. split_and!; [lia|lia|done|done].
  - destruct (request_phase_frame Version RequestOptionOneTimeAuth w
                destination payload ray f0 Hd) as (Hp & _ & _ & rest & Hrest & Hno).
    rewrite Hp, Hrest, count_app, Hcnt.
    rewrite (count_no_dial_acts is_pick rest); [|by intros []|done].
    rewrite Nat.add_0_r. split_and!; [lia|lia|done|done].
  - simpl. rewrite count_app, Hcnt, Hdef, Nat.add_0_r. split_and!; [lia|lia|done|done].
Qed.
End Continue.

(** *** Creating a client *)

Section Created.
Context (ServerEndpoint : Type) (NewServerSpecFromPB : ServerEndpoint → protocol.ServerSpec).
Context (ServerList : Type) (NewServerList : ServerList).
Context (AddServer : ServerList → protocol.ServerSpec → ServerList).
Context (NewRoundRobinServerPicker : ServerList → protocol.RoundRobinServerPicker).

(** What a server list holds, as far as the theorems need it: the new
    list holds nothing, and [AddServer] puts the server behind those
    already held. *)
Context (servers_of : ServerList → list protocol.ServerSpec).
Hypothesis servers_of_new : servers_of NewServerList = [].
Hypothesis servers_of_add : ∀ l s, servers_of (AddServer l s) = servers_of l ++ [s].

Local Abbreviation add_servers :=
  (add_servers ServerEndpoint NewServerSpecFromPB ServerList AddServer).
Local Abbreviation Create :=
  (Create ServerEndpoint NewServerSpecFromPB ServerList NewServerList AddServer
     NewRoundRobinServerPicker).

(** The loop of [NewClient] either meets a nil entry, or adds the server
    of every entry, in the order of the slice. *)
Lemma add_servers_loop recs : ∀ serverList,
  match add_servers recs serverList with
  | Some serverList' =>
      ∃ entries, recs = Some <$> entries ∧
        servers_of serverList' = servers_of serverList ++ (NewServerSpecFromPB <$> entries)
  | None => None ∈ recs
  end.
Proof.
  induction recs as [|[rec|] recs IH]; intros serverList; simpl.
  - exists []. by rewrite app_nil_r.
  - specialize (IH (AddServer serverList (NewServerSpecFromPB rec))).
    destruct (add_servers recs _) as [serverList'|].
    + destruct IH as (entries & -> & Hs). exists (rec :: entries). split; [done|].
      by rewrite Hs, servers_of_add, <- app_assoc.
    + by apply list_elem_of_further.
  - apply list_elem_of_here.
Qed.

(** How [Create] ends, case by case.  It yields a handler only for a
    non-nil [ClientConfig] without nil entry; the handler is a client that
    keeps the given meta, the error beside it is nil, and, provided
    [AddServer] puts a server behind those the list holds, the picker of
    the client is built over the servers of the configured entries, one
    per entry, in configuration order.  Otherwise [Create] panics: at the
    type assertion for a value of another type, at [config.Server] for
    the nil config, at [*rec] for a nil entry. *)
Theorem created_client_servers space rawConfig meta' :
  match Create space rawConfig meta' with
  | Handler client err =>
      err = None ∧ meta client = meta' ∧
      ∃ config entries serverList,
        rawConfig = IsClientConfig _ (Some config) ∧
        Server _ config = Some <$> entries ∧
        serverPicker client = NewRoundRobinServerPicker serverList ∧
        servers_of serverList = NewServerSpecFromPB <$> entries
  | ConfigAssertion t => rawConfig = IsOtherConfig _ t
  | NilConfig => rawConfig = IsClientConfig _ None
  | NilEndpoint =>
      ∃ config, rawConfig = IsClientConfig _ (Some config) ∧ None ∈ Server _ config
  end.
Proof.
  destruct rawConfig as [[config|]|t]; simpl; [|done|done].
  pose proof (add_servers_loop (Server _ config) NewServerList) as Hloop.
  destruct (add_servers (Server _ config) NewServerList) as [serverList|].
  - destruct Hloop as (entries & Hrecs & Hs). rewrite servers_of_new in Hs.
    split; [done|]. split; [done|]. by exists config, entries, serverList.
  - by exists config.
Qed.
End Created.

(** *** The calls of a successful dispatch *)

Section Success.
Context (Version RequestOptionOneTimeAuth : Z) (w : World).
Local Abbreviation Dispatch := (Dispatch Version RequestOptionOneTimeAuth w).

(** The calls of a dispatch that returns nil, in order.  After the dial
    phase, the log line and [SetReusable]: in stream mode the header is
    written, then the payload, then the goroutine is started, buffering is
    switched off, the Input is piped into the body writer and the mutex is
    taken again; in datagram mode the goroutine is started before the
    first packet is written and the Input is piped.  The releases follow. *)
Theorem successful_dispatch_calls this destination payload ray :
  let r := Dispatch this destination payload ray in
  r.1 = Returned None →
  ∃ pre sv c req,
    forallb dial_act pre = true ∧
    server r.2 = Some sv ∧ conn r.2 = Some c ∧ request r.2 = Some req ∧
    let user := PickUser w sv in
    let head := pre ++ [LogInfo destination (protocol.Destination sv);
                        SetReusable c false] in
    let tail := [OutputClose ray; InputRelease ray; PayloadRelease payload] in
    ((v2net.network destination = v2net.Network_TCP ∧
      ∃ bw, trace r.2 =
        head ++
        [NewBufferedWriter c; CallWriteTCPRequest req c;
         WriterWrite (TCPBody bw) payload;
         MutexLock; Go (stream_reader w user c ray); SetCached false;
         PipeFromInput ray (TCPBody bw) (PipeRequest w (TCPBody bw)); MutexLock;
         WriterRelease bw; BufferedWriterRelease c] ++ tail) ∨
     (v2net.network destination ≠ v2net.Network_TCP ∧
      trace r.2 =
        head ++
        [NewTimeOutReader 16 c; MutexLock; Go (datagram_reader w user c ray);
         WriterWrite (UDPWriter c req) payload;
         PipeFromInput ray (UDPWriter c req) (PipeRequest w (UDPWriter c req));
         MutexLock] ++ tail)).
Proof.
  simpl. rewrite Dispatch_unfold.
  destruct (dial_phase w this _ _) as [r f0] eqn:Hdial.
  apply dial_phase_frame in Hdial as (Hd & Hrq & Hall & Hc).
  destruct f0 as [p n sv0 c0 rq tr df]; simpl in Hd, Hrq, Hall, Hc; subst df rq.
  destruct r as [[e'|]|o]; [done| |by destruct Hc as [-> _]].
  run_request; intros [= ]; try absurd_case.
  all: eexists tr, _, _, _; split; [done|].
  all: split; [reflexivity|]; split; [reflexivity|]; split; [reflexivity|].
  all: cbv zeta.
  all: try (left; split; [assumption|]; eexists; rewrite <- ?app_assoc; reflexivity).
  all: try (right; split; [assumption|]; rewrite <- ?app_assoc; reflexivity).
Qed.
End Success.

(** ** The theorems at sample inputs *)

Lemma ex_pool_nonempty : protocol.serverlist (serverPicker ex_client) ≠ [].
Proof. discriminate. Qed.

(** C1, counterexample: a raw-stream destination is one of the stream
    capabilities of the factory, yet its header carries the datagram
    command. *)
Lemma C1_counterexample :
  let d := ex_destination v2net.Network_RawTCP in
  v2net.network d ∈ StreamCapability ∧
  ∃ req,
    request (Dispatch 1 1 ex_world ex_client d [] (Ray 0)).2 = Some req ∧
    protocol.Command req = protocol.RequestCommandUDP.
Proof.
  split.
  - apply list_elem_of_further, list_elem_of_here.
  - eexists. split; [vm_compute; reflexivity|reflexivity].
Qed.

Lemma C1_command_by_network_witness :
  let req := ex_header v2net.Network_RawTCP 1 in
  (v2net.Network_RawTCP = v2net.Network_TCP →
     protocol.Command req = protocol.RequestCommandTCP) ∧
  (v2net.Network_RawTCP ≠ v2net.Network_TCP →
     protocol.Command req = protocol.RequestCommandUDP).
Proof.
  apply (C1_command_by_network 1 1 ex_world ex_client
           (ex_destination v2net.Network_RawTCP) [] (Ray 0)).
  vm_compute. reflexivity.
Defined.

Lemma C2_one_time_auth_flag_witness :
  let a := ex_shadowsocks account.Account_Enabled in
  let f := (Dispatch 1 1 ex_world ex_client (ex_destination v2net.Network_TCP)
              [] (Ray 0)).2 in
  ∃ req, request f = Some req ∧
    (protocol.Has (protocol.Option req) 1 = true ↔
       account.OneTimeAuth a = account.Account_Enabled ∨
       account.OneTimeAuth a = account.Account_Auto) ∧
    (account.OneTimeAuth a = account.Account_Disabled →
       protocol.Has (protocol.Option req) 1 = false).
Proof.
  apply (C2_one_time_auth_flag 1 1 ex_world ex_client (ex_destination v2net.Network_TCP)
           [] (Ray 0) (ex_server "a") (Conn 0)).
  - lia.
  - vm_compute. reflexivity.
  - vm_compute. reflexivity.
  - reflexivity.
Defined.

Lemma header_handed_to_codec_witness :
  let f := (Dispatch 1 1 ex_world ex_client (ex_destination v2net.Network_UDP)
              [] (Ray 0)).2 in
  request f = Some (ex_header v2net.Network_UDP 1) ∧ conn f = Some (Conn 0).
Proof.
  apply (header_handed_to_codec 1 1 ex_world ex_client (ex_destination v2net.Network_UDP)
           [] (Ray 0)).
  right. left. exists []. vm_compute. find_elem.
Defined.

Lemma C3_dial_attempts_witness :
  let w := refusing 2 ex_world in
  let p := serverPicker ex_client in
  let net := v2net.Network_UDP in
  let f := (Dispatch 1 1 w ex_client (ex_destination net) [] (Ray 0)).2 in
  ∃ k rest,
    1 ≤ k ≤ 5 ∧
    trace f = spaced (Sleep 100) (attempt_calls p "0.0.0.0" net <$> seq 0 k) ++ rest ∧
    forallb (λ a, negb (dial_act a)) rest = true ∧
    (∀ i, i < k →
       protocol.serverlist p !! ((protocol.nextIndex p + i) mod length (protocol.serverlist p))
       = Some (turn p i)) ∧
    (∀ i,
       target p net i =
         {| v2net.network := v2net.Network_UDP;
            v2net.Address := v2net.Address (protocol.Destination (turn p i));
            v2net.Port := v2net.Port (protocol.Destination (turn p i)) |}) ∧
    (∀ i, i < k - 1 → ∃ e, Dial w i "0.0.0.0" (target p net i) = inr e) ∧
    server f = Some (turn p (k - 1)) ∧
    ((∃ c, Dial w (k - 1) "0.0.0.0" (target p net (k - 1)) = inl c ∧ conn f = Some c) ∨
     (k = 5 ∧ conn f = None ∧ ∃ e, Dial w 4 "0.0.0.0" (target p net 4) = inr e)).
Proof.
  apply (C3_dial_attempts 1 1 (refusing 2 ex_world) ex_client
           (ex_destination v2net.Network_UDP) [] (Ray 0)).
  discriminate.
Defined.

Lemma C4_all_dials_fail_witness :
  let w := refusing 5 ex_world in
  let p := serverPicker ex_client in
  let net := v2net.Network_TCP in
  ∃ e f,
    Dial w 4 "0.0.0.0" (target p net 4) = inr e ∧
    Dispatch 1 1 w ex_client (ex_destination net) [] (Ray 0) =
      (Returned (Some ("Shadowsocks|Client: Failed to find an available destination:"
                       +:+ e)), f) ∧
    conn f = None ∧ request f = None ∧
    trace f = spaced (Sleep 100) (attempt_calls p "0.0.0.0" net <$> seq 0 5) ++
              [OutputClose (Ray 0); InputRelease (Ray 0); PayloadRelease []] ∧
    count writes (trace f) = 0.
Proof.
  apply (C4_all_dials_fail 1 1 (refusing 5 ex_world) ex_client
           (ex_destination v2net.Network_TCP) [] (Ray 0)).
  - discriminate.
  - intros i Hi. exists "connection refused". simpl.
    destruct (decide (i < 5)); [reflexivity|lia].
Defined.

Lemma C6_response_failure_not_returned_witness :
  let rd : protocol.User → Connection → Reader + string := λ _ _, inr "unexpected EOF" in
  let pr : source → option string := λ _, Some "connection reset" in
  let user := {| protocol.Email := "a" |} in
  let r := Dispatch 1 1 (with_response ex_world rd pr) ex_client
             (ex_destination v2net.Network_TCP) [] (Ray 0) in
  r.1 = Returned None ∧
  Go [CallReadTCPResponse user (Conn 0);
      LogWarning ("Shadowsocks|Client: Failed to read response: " +:+ "unexpected EOF");
      MutexUnlock] ∈ trace r.2.
Proof.
  intros rd pr user r.
  destruct (proj2 (C6_response_failure_not_returned 1 1 ex_world ex_client
                     (ex_destination v2net.Network_TCP) [] (Ray 0) rd pr)
              (ex_server "a") (Conn 0) (ex_shadowsocks account.Account_Enabled)
              (ex_header v2net.Network_TCP 1))
    as (Hnil & Hlog & _).
  - vm_compute. reflexivity.
  - vm_compute. reflexivity.
  - reflexivity.
  - vm_compute. reflexivity.
  - intros _. exists (BodyWriter 0). split; reflexivity.
  - intros _. reflexivity.
  - split; [exact Hnil|]. apply (Hlog "unexpected EOF"); reflexivity.
Defined.

(** C7, the code at the failing input: in datagram mode with a failing
    first write, [Dispatch] returns the write error, and there is an
    interleaving in which the Output has been closed and the payload
    released while the response goroutine has not finished and then pipes
    into that Output. *)
Lemma C7_datagram_write_failure_races :
  let r := Dispatch 1 1 (with_write (Some "broken pipe") ex_world) ex_client
             (ex_destination v2net.Network_UDP) [] (Ray 0) in
  r.1 = Returned (Some "Shadowsocks|Client: Failed to write payload: broken pipe") ∧
  sync.synchronised (trace r.2) = false ∧
  ∃ cfg, sched.reachable (trace r.2) cfg ∧
         sched.cleaned cfg = true ∧ sched.quiescent cfg = false ∧
         inl (OutputClose (Ray 0)) ∈ sched.hist cfg ∧
         ∃ src err, last (sched.hist cfg) = Some (inr (PipeToOutput src (Ray 0) err)).
Proof.
  split; [vm_compute; reflexivity|]. split; [vm_compute; reflexivity|].
  eexists. split.
  { apply (run_reachable (replicate 11 None ++ [Some 0])). vm_compute. reflexivity. }
  split; [reflexivity|]. split; [reflexivity|]. split.
  - simpl. find_elem.
  - by eexists _, _.
Qed.

(** C8, counterexample: when the account cannot be resolved, the error is
    returned with the request header already built. *)
Lemma C8_counterexample :
  let r := Dispatch 1 1 (with_account (inr "unknown account type") ex_world) ex_client
             (ex_destination v2net.Network_TCP) [] (Ray 0) in
  r.1 = Returned (Some "Shadowsocks|Client: Failed to get a valid user account: unknown account type") ∧
  request r.2 ≠ None.
Proof. split; [vm_compute; reflexivity|]. vm_compute. discriminate. Qed.

Lemma C8_account_failure_witness :
  let d := ex_destination v2net.Network_TCP in
  let r := Dispatch 1 1 (with_account (inr "unknown account type") ex_world) ex_client
             d [] (Ray 0) in
  r.1 = Returned (Some ("Shadowsocks|Client: Failed to get a valid user account: "
                        +:+ "unknown account type")) ∧
  request r.2 =
    Some {| protocol.Version := 1;
            protocol.Command :=
              if decide (v2net.network d = v2net.Network_TCP)
              then protocol.RequestCommandTCP else protocol.RequestCommandUDP;
            protocol.Option := 0;
            protocol.Address := v2net.Address d;
            protocol.Port := v2net.Port d;
            protocol.ReqUser := None |} ∧
  count writes (trace r.2) = 0.
Proof.
  apply (C8_account_failure 1 1 (with_account (inr "unknown account type") ex_world)
           ex_client (ex_destination v2net.Network_TCP) [] (Ray 0)
           (ex_server "a") (Conn 0)).
  - vm_compute. reflexivity.
  - vm_compute. reflexivity.
  - reflexivity.
Defined.

Lemma C9_foreign_account_panics_witness :
  (Dispatch 1 1 (with_account (inl (protocol.IsForeign "vmess.Account")) ex_world)
     ex_client (ex_destination v2net.Network_TCP) [] (Ray 0)).1
  = Panicked (TypeAssertion "vmess.Account").
Proof.
  apply (C9_foreign_account_panics 1 1
           (with_account (inl (protocol.IsForeign "vmess.Account")) ex_world)
           ex_client (ex_destination v2net.Network_TCP) [] (Ray 0)).
  exists (ex_server "a"), (Conn 0).
  split; [vm_compute; reflexivity|]. split; [vm_compute; reflexivity|reflexivity].
Defined.



Lemma cleanup_follows_reader_witness :
  let r := Dispatch 1 1 ex_world ex_client (ex_destination v2net.Network_TCP) [] (Ray 0) in
  ∃ cfg, sched.run (replicate 11 None ++ [Some 0; Some 0; Some 0] ++ replicate 6 None)
           (sched.start (trace r.2)) = Some cfg ∧
         sched.quiescent cfg = true ∧ forallb sync.quiet (sched.fg cfg) = true.
Proof.
  intros r. eexists. split; [vm_compute; reflexivity|].
  apply (cleanup_follows_reader 1 1 ex_world ex_client
           (ex_destination v2net.Network_TCP) [] (Ray 0)).
  - left. reflexivity.
  - apply (run_reachable (replicate 11 None ++ [Some 0; Some 0; Some 0]
                          ++ replicate 6 None)).
    vm_compute. reflexivity.
  - reflexivity.
Defined.

(** *** The added theorems at sample inputs *)

Lemma Dispatch_error_causes_witness :
  let w := with_write (Some "broken pipe") ex_world in
  let r := Dispatch 1 1 w ex_client (ex_destination v2net.Network_UDP) [] (Ray 0) in
  let msg := "Shadowsocks|Client: Failed to write payload: broken pipe" in
  (∃ e, msg = "Shadowsocks|Client: Failed to find an available destination:" +:+ e ∧
        conn r.2 = None) ∨
  (∃ sv e, msg = "Shadowsocks|Client: Failed to get a valid user account: " +:+ e ∧
           server r.2 = Some sv ∧ GetTypedAccount w (PickUser w sv) = inr e) ∨
  (∃ req c bw e, msg = "Shadowsock|Client: Failed to write request: " +:+ e ∧
                 request r.2 = Some req ∧ conn r.2 = Some c ∧
                 v2net.network (ex_destination v2net.Network_UDP) = v2net.Network_TCP ∧
                 WriteTCPRequest w req c = (Some bw, Some e)) ∨
  (∃ req c e, msg = "Shadowsocks|Client: Failed to write payload: " +:+ e ∧
              request r.2 = Some req ∧ conn r.2 = Some c ∧
              ((∃ bw, WriteTCPRequest w req c = (Some bw, None) ∧
                      Write w (TCPBody bw) [] = Some e) ∨
               (v2net.network (ex_destination v2net.Network_UDP) ≠ v2net.Network_TCP ∧
                Write w (UDPWriter c req) [] = Some e))).
Proof.
  apply (Dispatch_error_causes 1 1 (with_write (Some "broken pipe") ex_world) ex_client
           (ex_destination v2net.Network_UDP) [] (Ray 0)).
  vm_compute. reflexivity.
Defined.

Lemma goroutine_unlocks_last_witness :
  let body := [CallReadTCPResponse {| protocol.Email := "a" |} (Conn 0);
               PipeToOutput (TCPResponse (ResponseReader 0)) (Ray 0) None;
               MutexUnlock] in
  sync.unlocks_last body = true ∧
  ∀ src out err, PipeToOutput src out err ∈ body → out = Ray 0.
Proof.
  apply (goroutine_unlocks_last 1 1 ex_world ex_client
           (ex_destination v2net.Network_TCP) [] (Ray 0)).
  vm_compute. find_elem.
Defined.

Lemma Dispatch_never_deadlocks_witness :
  let r := Dispatch 1 1 ex_world ex_client (ex_destination v2net.Network_TCP) [] (Ray 0) in
  ∃ cfg, sched.run (replicate 11 None ++ [Some 0; Some 0; Some 0] ++ replicate 6 None)
           (sched.start (trace r.2)) = Some cfg ∧
         sched.fg cfg = [] ∧ sched.quiescent cfg = true.
Proof.
  intros r. eexists. split; [vm_compute; reflexivity|].
  apply (Dispatch_never_deadlocks 1 1 ex_world ex_client
           (ex_destination v2net.Network_TCP) [] (Ray 0)).
  - apply (run_reachable (replicate 11 None ++ [Some 0; Some 0; Some 0]
                          ++ replicate 6 None)).
    vm_compute. reflexivity.
  - split; [reflexivity|]. intros [|i]; reflexivity.
Defined.

Lemma created_client_servers_witness :
  let m := {| MetaAddress := "0.0.0.0" |} in
  let client := {| serverPicker :=
                     protocol.NewRoundRobinServerPicker [ex_server "a"; ex_server "b"];
                   meta := m |} in
  (None : option string) = None ∧ meta client = m ∧
  ∃ config entries serverList,
    IsClientConfig string (Some ex_config) = IsClientConfig string (Some config) ∧
    Server _ config = Some <$> entries ∧
    serverPicker client = protocol.NewRoundRobinServerPicker serverList ∧
    serverList = ex_server <$> entries.
Proof.
  apply (created_client_servers string ex_server (list protocol.ServerSpec) []
           (λ l s, l ++ [s]) protocol.NewRoundRobinServerPicker (λ l, l)
           eq_refl (λ l s, eq_refl)
           TheSpace (IsClientConfig string (Some ex_config)) {| MetaAddress := "0.0.0.0" |}).
Defined.

Lemma successful_dispatch_calls_witness :
  let w := ex_world in
  let destination := ex_destination v2net.Network_UDP in
  let payload : Buffer := [] in
  let ray := Ray 0 in
  let r := Dispatch 1 1 w ex_client destination payload ray in
  ∃ pre sv c req,
    forallb dial_act pre = true ∧
    server r.2 = Some sv ∧ conn r.2 = Some c ∧ request r.2 = Some req ∧
    let user := PickUser w sv in
    let head := pre ++ [LogInfo destination (protocol.Destination sv);
                        SetReusable c false] in
    let tail := [OutputClose ray; InputRelease ray; PayloadRelease payload] in
    ((v2net.network destination = v2net.Network_TCP ∧
      ∃ bw, trace r.2 =
        head ++
        [NewBufferedWriter c; CallWriteTCPRequest req c;
         WriterWrite (TCPBody bw) payload;
         MutexLock; Go (stream_reader w user c ray); SetCached false;
         PipeFromInput ray (TCPBody bw) (PipeRequest w (TCPBody bw)); MutexLock;
         WriterRelease bw; BufferedWriterRelease c] ++ tail) ∨
     (v2net.network destination ≠ v2net.Network_TCP ∧
      trace r.2 =
        head ++
        [NewTimeOutReader 16 c; MutexLock; Go (datagram_reader w user c ray);
         WriterWrite (UDPWriter c req) payload;
         PipeFromInput ray (UDPWriter c req) (PipeRequest w (UDPWriter c req));
         MutexLock] ++ tail)).
Proof.
  apply (successful_dispatch_calls 1 1 ex_world ex_client
           (ex_destination v2net.Network_UDP) [] (Ray 0)).
  vm_compute. reflexivity.
Defined.
